(** * structptrs: enumeration of the pointer fields of an aggregate value

    A shallow embedding of [src/usr.sbin/httpd/structptrs.py], the gdb
    command that walks a by-value aggregate (struct, union, array) and
    prints every pointer stored in it, followed by a total.

    The script talks to gdb through [gdb.Type], [gdb.Field] and
    [gdb.Value] objects.  They are modelled by the inductive types of
    module [Gdb].  The convention is the script's own: an operation the
    script guards with [try ... except] is partial here (it returns an
    [option], [None] standing for a raised exception), an operation the
    script calls unguarded is total.  The one unguarded call that reads
    the contents of a value, [str(v)] in the handler of [fmt_addr], is
    taken as total first and as fallible in module [Live], where an
    exception can leave the walk and the command. *)

From Stdlib Require Import List ZArith Lia Bool Ascii String.
From Stdlib Require Import DecimalString HexadecimalString.
From Stdlib Require Import Decimal Hexadecimal DecimalZ HexadecimalZ DecimalNat.
Import ListNotations.

Local Open Scope string_scope.
Local Open Scope Z_scope.

(* ================================================================== *)
(** ** The debugger interface *)

Module Gdb.

(** [gdb.TYPE_CODE_*], as far as the script tells them apart. *)
Inductive type_code : Type :=
| TYPE_CODE_PTR
| TYPE_CODE_ARRAY
| TYPE_CODE_STRUCT
| TYPE_CODE_UNION
| TYPE_CODE_TYPEDEF
| TYPE_CODE_INT
| TYPE_CODE_FLT
| TYPE_CODE_ENUM
| TYPE_CODE_FUNC.

Definition code_eqb (a b : type_code) : bool :=
  match a, b with
  | TYPE_CODE_PTR, TYPE_CODE_PTR
  | TYPE_CODE_ARRAY, TYPE_CODE_ARRAY
  | TYPE_CODE_STRUCT, TYPE_CODE_STRUCT
  | TYPE_CODE_UNION, TYPE_CODE_UNION
  | TYPE_CODE_TYPEDEF, TYPE_CODE_TYPEDEF
  | TYPE_CODE_INT, TYPE_CODE_INT
  | TYPE_CODE_FLT, TYPE_CODE_FLT
  | TYPE_CODE_ENUM, TYPE_CODE_ENUM
  | TYPE_CODE_FUNC, TYPE_CODE_FUNC => true
  | _, _ => false
  end.

(** The codes of the types that are neither pointer nor aggregate nor
    typedef. *)
Inductive scalar_kind : Type := KInt | KFlt | KEnum | KFunc.

(** A [gdb.Type].  Every type has a tag (absent for untagged types), a
    printed form [str(t)] and a size ([None] for a dynamic type, whose
    [sizeof] is Python's [None]).  What else can be asked of it depends
    on its code: an array type has a target and bounds ([range()], which
    the script treats as fallible), a struct or union type has fields,
    a typedef resolves to its underlying type unless [strip_typedefs()]
    raises. *)
Inductive type : Type :=
| Type_ (tag : option string) (str : string) (sizeof : option Z) (shape : type_shape)
with type_shape : Type :=
| Ptr
| Array (range : option (Z * Z)) (target : type)
| Struct (fields : list field)
| Union (fields : list field)
| Typedef (resolved : option type)
| Scalar (k : scalar_kind)
with field : Type :=
| Field (name : option string) (artificial : bool) (ftype : type).

Definition tag (t : type) : option string := let 'Type_ g _ _ _ := t in g.
Definition str (t : type) : string := let 'Type_ _ s _ _ := t in s.
Definition sizeof (t : type) : option Z := let 'Type_ _ _ z _ := t in z.
Definition shape (t : type) : type_shape := let 'Type_ _ _ _ sh := t in sh.

Definition code (t : type) : type_code :=
  match shape t with
  | Ptr => TYPE_CODE_PTR
  | Array _ _ => TYPE_CODE_ARRAY
  | Struct _ => TYPE_CODE_STRUCT
  | Union _ => TYPE_CODE_UNION
  | Typedef _ => TYPE_CODE_TYPEDEF
  | Scalar KInt => TYPE_CODE_INT
  | Scalar KFlt => TYPE_CODE_FLT
  | Scalar KEnum => TYPE_CODE_ENUM
  | Scalar KFunc => TYPE_CODE_FUNC
  end.

(** [t.strip_typedefs()]: peels every typedef layer; [None] when a layer
    cannot be resolved (the call raises). *)
Fixpoint strip_typedefs (t : type) : option type :=
  match t with
  | Type_ _ _ _ (Typedef (Some u)) => strip_typedefs u
  | Type_ _ _ _ (Typedef None) => None
  | _ => Some t
  end.

(** [t.range()]: the bounds of an array type; raises for the others and
    where the debugger cannot tell. *)
Definition range (t : type) : option (Z * Z) :=
  match shape t with
  | Array r _ => r
  | _ => None
  end.

(** [t.target()] of an array type: the element type.  The walker asks
    for the length and the target of array types only ([array_len] and
    [target] are called under [is_array(t)]), and nothing here is stated
    of them on other types: a pointer type is described without its
    target, which the walker never looks at, so that a struct holding a
    pointer to a struct of its own type is a finite description.  [None]
    is the answer on every type that is not an array type. *)
Definition target (t : type) : option type :=
  match shape t with
  | Array _ el => Some el
  | _ => None
  end.

(** [t.fields()] *)
Definition fields (t : type) : list field :=
  match shape t with
  | Struct fs | Union fs => fs
  | _ => []
  end.

Definition name (f : field) : option string := let 'Field n _ _ := f in n.
Definition artificial (f : field) : bool := let 'Field _ a _ := f in a.
Definition ftype (f : field) : type := let 'Field _ _ t := f in t.

(** A [gdb.Value]: its static type, the outcome of [int(v)] ([None] when
    the conversion raises), its printed form [str(v)], and its
    sub-values.  [v[k]] is the [k]-th element of an array value and the
    value of the [k]-th field of a struct or union value; an entry
    [None], like an index past the end, is a sub-value the debugger
    cannot produce (the subscript raises). *)
#[warning="-register-all"] Inductive value : Type :=
| Value (vtype : type) (vint : option Z) (vstr : string)
        (vsub : list (option value)).

Definition vtype (v : value) : type := let 'Value t _ _ _ := v in t.
Definition vint (v : value) : option Z := let 'Value _ i _ _ := v in i.
Definition vstr (v : value) : string := let 'Value _ _ s _ := v in s.
Definition vsub (v : value) : list (option value) := let 'Value _ _ _ l := v in l.

(** Subscripting a list of sub-values: [None] is the raised exception. *)
Definition subscript {A : Type} (l : list (option A)) (k : nat) : option A :=
  match nth_error l k with
  | Some (Some x) => Some x
  | _ => None
  end.

(** [val[k]] *)
Definition getitem (v : value) (k : nat) : option value := subscript (vsub v) k.

(** What [gdb.write] receives.  Each constructor is one of the script's
    format strings; [render] gives the text. *)
Inductive line : Type :=
| Report (path tname addr : string)
| UnknownLength (path elname : string)
| InaccessibleElement (path : string) (i : nat)
| Inaccessible (full : string)
| Total (count : Z).

(** Python's [str] of an integer. *)
Definition str_int (z : Z) : string :=
  DecimalString.NilZero.string_of_int (Z.to_int z).
Definition str_nat (n : nat) : string := str_int (Z.of_nat n).

Definition nl : string := String (ascii_of_nat 10) EmptyString.

Definition render (l : line) : string :=
  match l with
  | Report path tname addr => path ++ " : " ++ tname ++ " = " ++ addr ++ nl
  | UnknownLength path el =>
      path ++ " : <array of " ++ el ++ "> (length unknown; skipped)" ++ nl
  | InaccessibleElement path i =>
      path ++ "[" ++ str_nat i ++ "] : <inaccessible element>" ++ nl
  | Inaccessible full => full ++ " : <inaccessible>" ++ nl
  | Total c => nl ++ "Total pointer fields: " ++ str_int c ++ nl
  end.

Definition is_report (l : line) : bool :=
  match l with Report _ _ _ => true | _ => false end.

End Gdb.

Import Gdb.

(* ================================================================== *)
(** ** The script *)

Definition strip (t : type) : type :=
  match strip_typedefs t with
  | Some u => u
  | None => t
  end.

Definition is_ptr (t : type) : bool := code_eqb (code (strip t)) TYPE_CODE_PTR.
Definition is_struct (t : type) : bool := code_eqb (code (strip t)) TYPE_CODE_STRUCT.
Definition is_union (t : type) : bool := code_eqb (code (strip t)) TYPE_CODE_UNION.
Definition is_array (t : type) : bool := code_eqb (code (strip t)) TYPE_CODE_ARRAY.

(** [t.tag or str(t)]: an absent or empty tag gives the printed form. *)
Definition typename (t : type) : string :=
  let t := strip t in
  match tag t with
  | Some g => if String.eqb g "" then str t else g
  | None => str t
  end.

Definition array_len (t : type) : option Z :=
  let t := strip t in
  match range t with
  | Some (lo, hi) => Some (hi - lo + 1)
  | None =>
      (* Fallback by sizeof math *)
      match target t with
      | Some el =>
          match sizeof el, sizeof t with
          | Some es, Some ts =>
              if (0 <? es) && (0 <? ts) then Some (ts / es) else None
          | _, _ => None
          end
      | None => None
      end
  end.

(** Python's ["{:x}".format(n)]: lowercase digits, a minus sign for a
    negative number. *)
Definition format_x (n : Z) : string :=
  HexadecimalString.NilZero.string_of_int (Z.to_hex_int n).

(** ["0x{:x}".format(n)] *)
Definition hex0x (n : Z) : string := "0x" ++ format_x n.

Definition fmt_addr (v : value) : string :=
  match vint v with
  | Some n => hex0x n
  | None => vstr v
  end.

(** The enumerator's [self.count] together with the text handed to
    [gdb.write] so far. *)
Record state : Type := mkState { count : Z; output : list line }.

Definition gdb_write (l : line) (s : state) : state :=
  {| count := count s; output := (output s ++ [l])%list |}.

Definition _report_pointer (pval : value) (ptype : type) (path : string)
    (s : state) : state :=
  let s := gdb_write (Report path (typename ptype) (fmt_addr pval)) s in
  {| count := count s + 1; output := output s |}.

(** A recursive call [self._walk_value(v, path)]. *)
Definition walker : Type := string -> state -> state.

(** [for x in xs: body], the loop body threading the state. *)
Definition for_each {A : Type} (xs : list A) (body : A -> state -> state)
    (s : state) : state :=
  fold_left (fun s x => body x s) xs s.

(** Python's [range(n)]: empty when [n <= 0]. *)
Definition py_range (n : Z) : list nat := seq 0 (Z.to_nat n).

(** [enumerate(t.fields())]: each field with its position, by which the
    value is subscripted. *)
Definition enumerate_from {A : Type} (k : nat) (l : list A) : list (nat * A) :=
  combine (seq k (List.length l)) l.

Definition enumerate {A : Type} (l : list A) : list (nat * A) :=
  enumerate_from 0 l.

Definition field_label (f : field) : string :=
  match name f with
  | Some n => if String.eqb n "" then "<anon>" else n
  | None => "<anon>"
  end.

Definition elem_path (path : string) (i : nat) : string :=
  path ++ "[" ++ str_nat i ++ "]".

Definition field_path (path : string) (f : field) : string :=
  path ++ "." ++ field_label f.

Section Body.

(** The sub-values of the value being walked, each with the recursive
    call on it. *)
Variable sub : list (option (value * walker)).

(** Body of the loop over the elements of an array. *)
Definition array_step (path : string) (i : nat) (s : state) : state :=
  match subscript sub i with
  | None => gdb_write (InaccessibleElement path i) s
  | Some (_, walk_elem) => walk_elem (elem_path path i) s
  end.

(** What the struct loop and the union loop both do with a member: name
    it, fetch its value, then report it, recurse into it or ignore it
    according to the member's declared type. *)
Definition member_step (path : string) (k : nat) (f : field) (s : state)
    : state :=
  let ft := strip (ftype f) in
  let full := field_path path f in
  match subscript sub k with
  | None => gdb_write (Inaccessible full) s
  | Some (fval, walk_fval) =>
      if is_ptr ft then _report_pointer fval ft full s
      else if is_array ft || is_struct ft || is_union ft then walk_fval full s
      else s
  end.

(** Body of the loop over the fields of a struct: artificial fields are
    skipped. *)
Definition struct_step (path : string) (kf : nat * field) (s : state)
    : state :=
  let (k, f) := kf in
  if artificial f then s else member_step path k f s.

(** Body of the loop over the members of a union: every member is
    visited. *)
Definition union_step (path : string) (kf : nat * field) (s : state)
    : state :=
  let (k, f) := kf in
  member_step path k f s.

(** The body of [_walk_value].  The script tests [is_ptr(t)],
    [is_array(t)], [is_struct(t)] and [is_union(t)] in this order; the
    tests read the code of [t] and exclude one another, so the body
    branches on the shape of [t], which also holds what can be asked of a
    type of that code (lemma [walk_body_as_tests] gives it with the
    tests). *)
Definition walk_body (val : value) (path : string) (s : state) : state :=
  let t := strip (vtype val) in
  match shape t with
  | Ptr => _report_pointer val t path s
  | Array _ el =>
      match array_len t with
      | None => gdb_write (UnknownLength path (typename el)) s
      | Some n => for_each (py_range n) (array_step path) s
      end
  | Struct fs => for_each (enumerate fs) (struct_step path) s
  | Union fs => for_each (enumerate fs) (union_step path) s
  | Typedef _ | Scalar _ => s
  end.

End Body.

(** [val]'s sub-values, each paired with the recursive call on it. *)
Definition with_walkers (walk : value -> walker) (val : value)
    : list (option (value * walker)) :=
  map (option_map (fun v => (v, walk v))) (vsub val).

(** The recursion is on the value: every recursive call is on one of its
    sub-values. *)
Fixpoint _walk_value (val : value) : walker :=
  walk_body (with_walkers _walk_value val) val.

Definition run (val : value) (root_name : string) (s : state) : state :=
  let s := {| count := 0; output := output s |} in
  let s := _walk_value val root_name s in
  gdb_write (Total (count s)) s.

(** [StructPtrEnumerator()]: a fresh enumerator writing after [out]. *)
Definition StructPtrEnumerator (out : list line) : state :=
  {| count := 0; output := out |}.

(* ------------------------------------------------------------------ *)
(** *** The walk when printing a value can fail

    [str(v)] reads the contents of the value, as [int(v)] does, and
    raises when they cannot be read.  [fmt_addr] calls it in the handler
    of [int(v)], where nothing catches what it raises.  Module [Live] is
    the script on values whose printing can fail: a raised exception
    leaves [fmt_addr], [_report_pointer], the loops, [_walk_value] and
    [run], and reaches the command.  The definitions above are the same
    script on values that can always be printed ([Live.of_printable]). *)

Module Live.

(** A [gdb.Value] as in [Gdb.value], but for [str(v)]: [inr text] is the
    printed form, [inl e] an exception whose [str] is [e]. *)
#[warning="-register-all"] Inductive value : Type :=
| Value (vtype : type) (vint : option Z) (vstr : string + string)
        (vsub : list (option value)).

Definition vtype (v : value) : type := let 'Value t _ _ _ := v in t.
Definition vint (v : value) : option Z := let 'Value _ i _ _ := v in i.
Definition vstr (v : value) : string + string := let 'Value _ _ s _ := v in s.
Definition vsub (v : value) : list (option value) := let 'Value _ _ _ l := v in l.

(** [val[k]] *)
Definition getitem (v : value) (k : nat) : option value := subscript (vsub v) k.

(** [inl e]: [str(v)] raised [e] in the handler, and [e] leaves
    [fmt_addr]. *)
Definition fmt_addr (v : value) : string + string :=
  match vint v with
  | Some n => inr (hex0x n)
  | None => vstr v
  end.

(** How a call ends: normally, or with an exception on its way up, in
    both cases with the state reached. *)
Inductive result : Type :=
| Normal (s : state)
| Raised (e : string) (s : state).

(** The f-string is evaluated before [gdb.write] is called: when
    [fmt_addr] raises, nothing is written and nothing is counted. *)
Definition _report_pointer (pval : value) (ptype : type) (path : string)
    (s : state) : result :=
  match fmt_addr pval with
  | inr addr =>
      let s := gdb_write (Report path (typename ptype) addr) s in
      Normal {| count := count s + 1; output := output s |}
  | inl e => Raised e s
  end.

Definition walker : Type := string -> state -> result.

(** [for x in xs: body]: an exception in the body ends the loop. *)
Fixpoint for_each {A : Type} (xs : list A) (body : A -> state -> result)
    (s : state) : result :=
  match xs with
  | [] => Normal s
  | x :: rest =>
      match body x s with
      | Normal s => for_each rest body s
      | Raised e s => Raised e s
      end
  end.

Section Body.

Variable sub : list (option (value * walker)).

Definition array_step (path : string) (i : nat) (s : state) : result :=
  match subscript sub i with
  | None => Normal (gdb_write (InaccessibleElement path i) s)
  | Some (_, walk_elem) => walk_elem (elem_path path i) s
  end.

Definition member_step (path : string) (k : nat) (f : field) (s : state)
    : result :=
  let ft := strip (ftype f) in
  let full := field_path path f in
  match subscript sub k with
  | None => Normal (gdb_write (Inaccessible full) s)
  | Some (fval, walk_fval) =>
      if is_ptr ft then _report_pointer fval ft full s
      else if is_array ft || is_struct ft || is_union ft then walk_fval full s
      else Normal s
  end.

Definition struct_step (path : string) (kf : nat * field) (s : state)
    : result :=
  let (k, f) := kf in
  if artificial f then Normal s else member_step path k f s.

Definition union_step (path : string) (kf : nat * field) (s : state)
    : result :=
  let (k, f) := kf in
  member_step path k f s.

Definition walk_body (val : value) (path : string) (s : state) : result :=
  let t := strip (vtype val) in
  match shape t with
  | Ptr => _report_pointer val t path s
  | Array _ el =>
      match array_len t with
      | None => Normal (gdb_write (UnknownLength path (typename el)) s)
      | Some n => for_each (py_range n) (array_step path) s
      end
  | Struct fs => for_each (enumerate fs) (struct_step path) s
  | Union fs => for_each (enumerate fs) (union_step path) s
  | Typedef _ | Scalar _ => Normal s
  end.

End Body.

Definition with_walkers (walk : value -> walker) (val : value)
    : list (option (value * walker)) :=
  map (option_map (fun v => (v, walk v))) (vsub val).

Fixpoint _walk_value (val : value) : walker :=
  walk_body (with_walkers _walk_value val) val.

(** The total is written only when the walk returns. *)
Definition run (val : value) (root_name : string) (s : state) : result :=
  let s := {| count := 0; output := output s |} in
  match _walk_value val root_name s with
  | Normal s => Normal (gdb_write (Total (count s)) s)
  | Raised e s => Raised e s
  end.

(** How a call of the command ends: it returns, it raises the
    [gdb.GdbError] it made, or another exception leaves it. *)
Inductive outcome : Type :=
| Returned
| GdbError (msg : string)
| Uncaught (e : string).

Section Command.

(** [gdb.string_to_argv] and [gdb.parse_and_eval]; [inl e] is a raised
    exception whose [str] is [e]. *)
Variable string_to_argv : string -> string + list string.
Variable parse_and_eval : string -> string + value.

(** [StructPtrsCommand.invoke]: the outcome and gdb's output stream.
    [enum.run] is called outside any [try]. *)
Definition invoke (arg : string) (out : list line) : outcome * list line :=
  match string_to_argv arg with
  | inl e => (GdbError e, out)
  | inr [] => (GdbError "usage: structptrs EXPR", out)
  | inr argv =>
      let expr := String.concat " " argv in
      match parse_and_eval expr with
      | inl e => (GdbError ("failed to evaluate EXPR: " ++ e), out)
      | inr val =>
          let enum := StructPtrEnumerator out in
          match run val expr enum with
          | Normal s => (Returned, output s)
          | Raised e s => (Uncaught e, output s)
          end
      end
  end.

End Command.

(** A value of the first embedding, as a value whose printing never
    fails. *)
Fixpoint of_printable (v : Gdb.value) : value :=
  match v with
  | Gdb.Value t i text sub =>
      Value t i (inr text) (map (option_map of_printable) sub)
  end.

End Live.

(** Induction on values, the hypothesis available for every accessible
    sub-value. *)
Section ValueInduction.

Variable P : value -> Prop.

Definition on_sub (o : option value) : Prop :=
  match o with
  | Some v => P v
  | None => True
  end.

Hypothesis step :
  forall t i s sub, Forall on_sub sub -> P (Value t i s sub).

Fixpoint value_nested_ind (v : value) : P v :=
  match v with
  | Value t i s sub =>
      step t i s sub
        ((fix all (l : list (option value)) : Forall on_sub l :=
            match l with
            | [] => Forall_nil _
            | o :: l' =>
                Forall_cons o
                  (match o return on_sub o with
                   | Some c => value_nested_ind c
                   | None => I
                   end)
                  (all l')
            end) sub)
  end.

End ValueInduction.

(* ================================================================== *)
(** ** Traces

    The definitions below are not in the script.  They name what a walk
    writes, so that the theorems can speak of the lines of a sub-value
    and of their order. *)

Local Open Scope list_scope.

(** The lines one walk writes, and how many of them are Report Records. *)
Definition trace (val : value) (path : string) : list line :=
  output (_walk_value val path (StructPtrEnumerator [])).

Definition reports (ls : list line) : nat := List.length (filter is_report ls).

(** The lines of array element [i]. *)
Definition elem_trace (val : value) (path : string) (i : nat) : list line :=
  match getitem val i with
  | None => [InaccessibleElement path i]
  | Some elem => trace elem (elem_path path i)
  end.

(** The lines of the member at position [k]. *)
Definition member_trace (val : value) (path : string) (k : nat) (f : field)
    : list line :=
  let ft := strip (ftype f) in
  let full := field_path path f in
  match getitem val k with
  | None => [Inaccessible full]
  | Some fval =>
      if is_ptr ft then [Report full (typename ft) (fmt_addr fval)]
      else if is_array ft || is_struct ft || is_union ft then trace fval full
      else []
  end.

Definition struct_field_trace (val : value) (path : string) (kf : nat * field)
    : list line :=
  if artificial (snd kf) then [] else member_trace val path (fst kf) (snd kf).

Definition union_member_trace (val : value) (path : string) (kf : nat * field)
    : list line :=
  member_trace val path (fst kf) (snd kf).

(** One level of the walk, the sub-values' lines taken as given. *)
Definition trace_unfold (val : value) (path : string) : list line :=
  let t := strip (vtype val) in
  match shape t with
  | Ptr => [Report path (typename t) (fmt_addr val)]
  | Array _ el =>
      match array_len t with
      | None => [UnknownLength path (typename el)]
      | Some n => flat_map (elem_trace val path) (py_range n)
      end
  | Struct fs => flat_map (struct_field_trace val path) (enumerate fs)
  | Union fs => flat_map (union_member_trace val path) (enumerate fs)
  | Typedef _ | Scalar _ => []
  end.

(** The script's loop body for array element [i], the recursive call
    written out. *)
Definition walk_elem (val : value) (path : string) (i : nat) (s : state)
    : state :=
  match getitem val i with
  | None => gdb_write (InaccessibleElement path i) s
  | Some elem => _walk_value elem (elem_path path i) s
  end.

(** [visits val k f]: the member loop of the walk of [val] comes to the
    member [f], declared at position [k]: [val] is a struct and [f] is
    not artificial, or [val] is a union. *)
Definition visits (val : value) (k : nat) (f : field) : Prop :=
  nth_error (fields (strip (vtype val))) k = Some f /\
  ((is_struct (strip (vtype val)) = true /\ artificial f = false) \/
   is_union (strip (vtype val)) = true).

(** [reaches val path pval ptype p]: the walk of [val] started at [path]
    comes to [pval] as a pointer to report, under the type [ptype] and
    at the path [p].  [pval] is [val] itself, of pointer type; or it is
    reached through an element of the array [val], below the length; or
    it is the value of a member of [val] declared as a pointer; or it is
    reached through a member of [val] declared as an aggregate. *)
Inductive reaches : value -> string -> value -> type -> string -> Prop :=
| reaches_root :
    forall val path,
      is_ptr (strip (vtype val)) = true ->
      reaches val path val (strip (vtype val)) path
| reaches_in_element :
    forall val path n i elem pval ptype p,
      is_array (strip (vtype val)) = true ->
      array_len (strip (vtype val)) = Some n ->
      (i < Z.to_nat n)%nat ->
      getitem val i = Some elem ->
      reaches elem (elem_path path i) pval ptype p ->
      reaches val path pval ptype p
| reaches_pointer_member :
    forall val path k f fval,
      visits val k f ->
      getitem val k = Some fval ->
      is_ptr (strip (ftype f)) = true ->
      reaches val path fval (strip (ftype f)) (field_path path f)
| reaches_in_member :
    forall val path k f fval pval ptype p,
      visits val k f ->
      getitem val k = Some fval ->
      is_ptr (strip (ftype f)) = false ->
      is_array (strip (ftype f)) || is_struct (strip (ftype f))
        || is_union (strip (ftype f)) = true ->
      reaches fval (field_path path f) pval ptype p ->
      reaches val path pval ptype p.

(** Reading an address back: the digits [0-9a-f] and the number they
    denote. *)
Definition lower_hex_digits : list ascii :=
  list_ascii_of_string "0123456789abcdef".

Definition all_lower_hex (digits : string) : Prop :=
  Forall (fun c => In c lower_hex_digits) (list_ascii_of_string digits).

Definition hex_decode (digits : string) : option Z :=
  option_map Z.of_hex_uint (HexadecimalString.NilZero.uint_of_string digits).

(** [emits w ls]: whatever the state, [w] appends exactly [ls] to the
    output and adds to the count the number of Report Records in [ls]. *)
Definition emits (w : state -> state) (ls : list line) : Prop :=
  forall s,
    w s = {| count := count s + Z.of_nat (reports ls);
             output := output s ++ ls |}.

(* ================================================================== *)
(** ** Sample values *)

Module Samples.

Definition t_int : type := Type_ None "int" (Some 4) (Scalar KInt).
Definition t_charp : type := Type_ None "char *" (Some 8) Ptr.
Definition t_voidp : type := Type_ None "void *" (Some 8) Ptr.

Definition array_of (el : type) (n : Z) : type :=
  Type_ None (str el ++ " []")
    (option_map (Z.mul n) (sizeof el))
    (Array (Some (0, n - 1)) el).

Definition v_int (n : Z) : value :=
  Value t_int (Some n) (str_int n) [].

Definition v_ptr (t : type) (a : Z) : value :=
  Value t (Some a) (hex0x a) [].

(** [struct rec { int a; char *name; int arr[2]; }] with [name] holding
    [0x1000]. *)
Definition t_rec : type :=
  Type_ (Some "rec") "struct rec" (Some 24)
    (Struct [Field (Some "a") false t_int;
             Field (Some "name") false t_charp;
             Field (Some "arr") false (array_of t_int 2)]).

Definition v_rec : value :=
  Value t_rec None "{...}"
    [Some (v_int 7);
     Some (v_ptr t_charp 4096);
     Some (Value (array_of t_int 2) None "{1, 2}"
             [Some (v_int 1); Some (v_int 2)])].

(** A [char *] value whose raw contents cannot be read: [int(v)] raises
    and gdb prints a placeholder. *)
Definition v_optimized_out : value :=
  Value t_charp None "<optimized out>" [].


(** [void *tail[]] for which gdb knows neither bounds nor size. *)
Definition t_flex : type := Type_ None "void *[]" None (Array None t_voidp).

Definition v_flex : value :=
  Value t_flex None "{...}" [Some (v_ptr t_voidp 4096)].

(** An array of two [void *] whose bounds query fails but whose size,
    16 bytes, is known. *)
Definition t_sized : type := Type_ None "void *[2]" (Some 16) (Array None t_voidp).

Definition v_sized : value :=
  Value t_sized None "{...}" [Some (v_ptr t_voidp 4096); Some (v_ptr t_voidp 8192)].

(** [void *slot[3]] whose middle element cannot be read. *)
Definition v_hole : value :=
  Value (array_of t_voidp 3) None "{...}"
    [Some (v_ptr t_voidp 4096); None; Some (v_ptr t_voidp 12288)].

(** Three members [p], [q], [r], all [void *]; [q] cannot be read. *)
Definition pqr : list field :=
  [Field (Some "p") false t_voidp;
   Field (Some "q") false t_voidp;
   Field (Some "r") false t_voidp].

Definition pqr_sub : list (option value) :=
  [Some (v_ptr t_voidp 4096); None; Some (v_ptr t_voidp 12288)].

Definition v_struct_hole : value :=
  Value (Type_ (Some "pqr") "struct pqr" (Some 24) (Struct pqr)) None "{...}"
    pqr_sub.

Definition v_union_hole : value :=
  Value (Type_ (Some "pqr") "union pqr" (Some 8) (Union pqr)) None "{...}"
    pqr_sub.

(** [struct abc { A a; void *b[2]; C c; }], the types of [a] and [c] being
    [void *] or [int]. *)
Definition ptr_or_int (p : bool) : type := if p then t_voidp else t_int.

Definition t_abc (pa pc : bool) : type :=
  Type_ (Some "abc") "struct abc" None
    (Struct [Field (Some "a") false (ptr_or_int pa);
             Field (Some "b") false (array_of t_voidp 2);
             Field (Some "c") false (ptr_or_int pc)]).

Definition v_abc (pa pc : bool) (a b0 b1 c : Z) : value :=
  Value (t_abc pa pc) None "{...}"
    [Some (Value (ptr_or_int pa) (Some a) "a" []);
     Some (Value (array_of t_voidp 2) None "{...}"
             [Some (v_ptr t_voidp b0); Some (v_ptr t_voidp b1)]);
     Some (Value (ptr_or_int pc) (Some c) "c" [])].

(** A union (resp. a struct) with one member, a pointer that the debug
    information flags as artificial. *)
Definition hidden : list field := [Field (Some "vp") true t_voidp].

Definition v_union_artificial : value :=
  Value (Type_ (Some "u") "union u" (Some 8) (Union hidden)) None "{...}"
    [Some (v_ptr t_voidp 4096)].

Definition v_struct_artificial : value :=
  Value (Type_ (Some "u") "struct u" (Some 8) (Struct hidden)) None "{...}"
    [Some (v_ptr t_voidp 4096)].

(** A front end that knows one variable, [r]. *)
Definition argv_of (arg : string) : string + list string :=
  if String.eqb arg "" then inr []
  else if String.eqb arg "'r" then inl "No closing quotation"
  else inr [arg].

(** A [void *] whose memory cannot be read: neither [int(v)] nor
    [str(v)] succeeds. *)
Definition v_unreadable : Live.value :=
  Live.Value t_voidp None (inl "Cannot access memory at address 0x0") [].

(** [struct pqr] with [p] and [r] readable and [q] not. *)
Definition v_pqr_unreadable : Live.value :=
  Live.Value (Type_ (Some "pqr") "struct pqr" (Some 24) (Struct pqr))
    None (inr "{...}")
    [Some (Live.of_printable (v_ptr t_voidp 4096));
     Some v_unreadable;
     Some (Live.of_printable (v_ptr t_voidp 12288))].

Definition eval_of (expr : string) : string + Live.value :=
  if String.eqb expr "r" then inr (Live.of_printable v_rec)
  else if String.eqb expr "s" then inr v_pqr_unreadable
  else if String.eqb expr "*q" then inr v_unreadable
  else inl "No symbol in current context.".

End Samples.

(* ================================================================== *)
(** ** Further observations and samples *)

Definition is_total (l : line) : bool :=
  match l with Total _ => true | _ => false end.

(** The number of pointers that a value of type [t] holds in its own
    memory, as the walker meets them: one for a pointer, the length times
    the element's number for an array of known length, the sum over the
    fields that are not artificial for a struct, the sum over all members
    for a union, nothing for the rest. *)
Fixpoint pointer_leaves (t : type) : nat :=
  match t with
  | Type_ _ _ _ sh =>
      match sh with
      | Ptr => 1
      | Array _ el =>
          match array_len t with
          | Some n => Z.to_nat n * pointer_leaves el
          | None => 0
          end
      | Struct fs =>
          list_sum
            (map (fun f => if artificial f then 0 else pointer_leaves (ftype f))
                 fs)
      | Union fs => list_sum (map (fun f => pointer_leaves (ftype f)) fs)
      | Typedef (Some u) => pointer_leaves u
      | Typedef None => 0
      | Scalar _ => 0
      end
  end%nat.

(** [readable val]: every sub-value the walk asks for is there and has
    the type its place declares (the element type in an array, the
    field's type in a struct or union), all the way down. *)
#[warning="-register-all"] Inductive readable : value -> Prop :=
| readable_array :
    forall val n el,
      is_array (strip (vtype val)) = true ->
      array_len (strip (vtype val)) = Some n ->
      target (strip (vtype val)) = Some el ->
      (forall i, (i < Z.to_nat n)%nat ->
         exists c, getitem val i = Some c /\
                   strip (vtype c) = strip el /\ readable c) ->
      readable val
| readable_struct :
    forall val,
      is_struct (strip (vtype val)) = true ->
      (forall k f,
         nth_error (fields (strip (vtype val))) k = Some f ->
         artificial f = false ->
         exists c, getitem val k = Some c /\
                   strip (vtype c) = strip (ftype f) /\ readable c) ->
      readable val
| readable_union :
    forall val,
      is_union (strip (vtype val)) = true ->
      (forall k f,
         nth_error (fields (strip (vtype val))) k = Some f ->
         exists c, getitem val k = Some c /\
                   strip (vtype c) = strip (ftype f) /\ readable c) ->
      readable val
| readable_leaf :
    forall val,
      is_array (strip (vtype val)) = false ->
      is_struct (strip (vtype val)) = false ->
      is_union (strip (vtype val)) = false ->
      readable val.

(** [labelled path l]: the text of [l] begins with [path]. *)
Definition labelled (path : string) (l : line) : Prop :=
  String.prefix path (render l) = true.

Module MoreSamples.

(** [typedef void *handle_t;] and a value of that type. *)
Definition t_handle : type :=
  Type_ None "handle_t" (Some 8) (Typedef (Some Samples.t_voidp)).

Definition v_handle : value := Value t_handle (Some 4096) "0x1000" [].

(** [int tail[]] as gdb describes a flexible array member: bounds 0 and
    -1. *)
Definition t_fam : type :=
  Type_ None "int []" (Some 0) (Array (Some (0, -1)) Samples.t_int).

Definition v_fam : value := Value t_fam None "0x0" [Some (Samples.v_int 1)].

(** [void *pair[2]] with both elements readable. *)
Definition v_pair : value :=
  Value (Samples.array_of Samples.t_voidp 2) None "{...}"
    [Some (Samples.v_ptr Samples.t_voidp 4096);
     Some (Samples.v_ptr Samples.t_voidp 8192)].

Definition pair_elem (i : nat) : value :=
  match i with
  | O => Samples.v_ptr Samples.t_voidp 4096
  | _ => Samples.v_ptr Samples.t_voidp 8192
  end.

(** A 20-byte array of 8-byte elements whose bounds query fails. *)
Definition t_ragged : type :=
  Type_ None "void *[]" (Some 20) (Array None Samples.t_voidp).

End MoreSamples.

(* ================================================================== *)
(** ** The batch driver

    A shallow embedding of [src/usr.sbin/httpd/run_valgrind.py]: [main]
    runs a program under valgrind once per file of a folder and stops at
    the first file on which valgrind reports an error.  The operating
    system and the Python library are parameters: the parsing of an
    integer, the folder test, the sorted listing of the folder, the file
    test, the run of the command on one input, the decoding of captured
    bytes.  Text is a string of bytes, non-ASCII characters in UTF-8.

    Module [Valgrind] is the driver on a standard output that takes
    every text, where [print] always returns.  Module [ValgrindIO], after
    it, is the driver on any standard output, where a [print] can raise;
    the two agree when no [print] raises (lemma [io_main_taken]). *)

Module Valgrind.

Local Open Scope string_scope.

(** A [Path] of the input folder: what [str(p)] and [p.name] give. *)
Record Path : Type := mkInput { file_path : string; file_name : string }.

(** How [subprocess.run] on one input (with the [open] before it) ends:
    with a completed process, with [subprocess.TimeoutExpired], or with
    another exception, whose [str] is [e]. *)
Inductive run_outcome : Type :=
| Completed (returncode : Z) (stdout stderr : string)
| TimeoutExpired
| OtherException (e : string).

(** What has been printed, one entry per [print], and the inputs the
    command has been started on, each with the command. *)
Record state : Type :=
  mkState { printed : list string; tried : list (list string * Path) }.

Definition print (text : string) (s : state) : state :=
  {| printed := (printed s ++ [text])%list; tried := tried s |}.

Definition start (cmd : list string) (f : Path) (s : state) : state :=
  {| printed := printed s; tried := (tried s ++ [(cmd, f)])%list |}.

(** [c * 80] *)
Definition times80 (c : string) : string := String.concat "" (repeat c 80).

(** Truth of a [bytes] value: it is not empty. *)
Definition nonempty (b : string) : bool := negb (String.eqb b "").

Definition valgrind_cmd : list string :=
  ["valgrind"; "--error-exitcode=42"; "--track-origins=yes";
   "--undef-value-errors=yes"; "--leak-check=no"].

Definition usage : list string :=
  ["Usage: ./run_valgrind.py <input_folder> [start_index] <program> [program_args...]";
   "  start_index: Optional starting input number (0-based, default: 0)";
   "Example: ./run_valgrind.py ./input ./httpd -d -f ./httpd.conf";
   "Example: ./run_valgrind.py ./input 3 ./httpd -d -f ./httpd.conf"].

Section Main.

(** [int(s)]; [None]: [ValueError]. *)
Variable py_int : string -> option Z.
(** [os.path.isdir] *)
Variable isdir : string -> bool.
(** [sorted(Path(folder).glob('*'))] *)
Variable sorted_glob : string -> list Path.
(** [f.is_file()] *)
Variable is_file : Path -> bool.
(** [open(input_file, 'rb')] and [subprocess.run(full_cmd, stdin=f,
    capture_output=True, timeout=60)] *)
Variable subprocess_run : list string -> Path -> run_outcome.
(** [b.decode('utf-8', errors='replace')] *)
Variable decode : string -> string.

(** The start index and the program command, from the arguments after
    the input folder. *)
Definition start_and_program (a2 : string) (rest : list string)
    : Z * list string :=
  match py_int a2 with
  | Some k => (k, rest)
  | None => (0, a2 :: rest)
  end.

(** The loop over the inputs at positions [idx], [idx + 1], ...;
    [Some code] when the body calls [sys.exit(code)]. *)
Fixpoint test_inputs (full_cmd : list string) (total : nat)
    (files : list Path) (idx : nat) (s : state) : option Z * state :=
  match files with
  | [] => (None, s)
  | input_file :: rest =>
      let i := S idx in
      let s := print (nl ++ "[" ++ str_nat i ++ "/" ++ str_nat total
                         ++ "] Testing with: " ++ file_name input_file) s in
      let s := print (times80 "-") s in
      let s := start full_cmd input_file s in
      match subprocess_run full_cmd input_file with
      | Completed returncode stdout stderr =>
          let s := if nonempty stderr then print (decode stderr) s else s in
          if (returncode =? 42)%Z then
            let s := print (nl ++ times80 "=") s in
            let s := print ("VALGRIND ERROR DETECTED with input: "
                              ++ file_path input_file) s in
            let s := print (times80 "=") s in
            let s := if nonempty stdout
                     then print (decode stdout) (print "STDOUT:" s)
                     else s in
            let s := print (times80 "=") s in
            let s := print ("Stopped at input " ++ str_nat i ++ "/"
                              ++ str_nat total ++ ": "
                              ++ file_path input_file) s in
            (Some 1, s)
          else
            let s := if negb (returncode =? 0)%Z
                     then print ("→ Program exited with code "
                                   ++ str_int returncode
                                   ++ " (not a valgrind error)") s
                     else print "→ ✓ OK" s in
            test_inputs full_cmd total rest (S idx) s
      | TimeoutExpired =>
          let s := print (nl ++ times80 "=") s in
          let s := print ("TIMEOUT (60s) with input: "
                            ++ file_path input_file) s in
          let s := print (times80 "=") s in
          let s := print "→ Skipping and continuing to next input..." s in
          test_inputs full_cmd total rest (S idx) s
      | OtherException e =>
          let s := print (nl ++ times80 "=") s in
          let s := print ("ERROR running valgrind with input: "
                            ++ file_path input_file) s in
          let s := print ("Exception: " ++ e) s in
          let s := print (times80 "=") s in
          (Some 1, s)
      end
  end.

(** [main()] on [sys.argv]: the exit code and what was printed and
    tried. *)
Definition main (argv : list string) : Z * state :=
  let s := {| printed := []; tried := [] |} in
  match argv with
  | _ :: input_folder :: a2 :: rest =>
      let '(start_index, program_args) := start_and_program a2 rest in
      if negb (isdir input_folder) then
        (1, print ("Error: Input folder '" ++ input_folder
                     ++ "' does not exist") s)
      else
        let input_files := filter is_file (sorted_glob input_folder) in
        let n := List.length input_files in
        match input_files with
        | [] => (1, print ("Error: No input files found in '"
                             ++ input_folder ++ "'") s)
        | _ =>
            if (start_index <? 0)%Z then
              (1, print ("Error: start_index must be >= 0, got "
                           ++ str_int start_index) s)
            else if (Z.of_nat n <=? start_index)%Z then
              (1, print ("Error: start_index " ++ str_int start_index
                           ++ " is >= number of input files ("
                           ++ str_nat n ++ ")") s)
            else
              let s := print ("Found " ++ str_nat n ++ " input files") s in
              let s := if (0 <? start_index)%Z
                       then print ("Starting from input "
                                     ++ str_int start_index
                                     ++ " (skipping first "
                                     ++ str_int start_index ++ " inputs)") s
                       else s in
              let s := print ("Program command: "
                                ++ String.concat " " program_args) s in
              let s := print (times80 "-") s in
              let full_cmd := (valgrind_cmd ++ program_args)%list in
              match test_inputs full_cmd n
                      (skipn (Z.to_nat start_index) input_files)
                      (Z.to_nat start_index) s with
              | (Some code, s) => (code, s)
              | (None, s) =>
                  let s := print (times80 "-") s in
                  let num_tested := Z.of_nat n - start_index in
                  let s := print ("✓ SUCCESS: All " ++ str_int num_tested
                                    ++ " inputs completed without valgrind errors")
                             s in
                  (0, s)
              end
        end
  | _ => (1, fold_left (fun s text => print text s) usage s)
  end.

(** The inputs [main] is to test, and whether a run on [f] ends the
    batch: valgrind's exit code 42, or an exception other than the
    timeout. *)
Definition inputs_of (input_folder : string) : list Path :=
  filter is_file (sorted_glob input_folder).

Definition stops (full_cmd : list string) (f : Path) : bool :=
  match subprocess_run full_cmd f with
  | Completed returncode _ _ => (returncode =? 42)%Z
  | TimeoutExpired => false
  | OtherException _ => true
  end.

(** The arguments pass every check of [main]. *)
Definition accepted (input_folder : string) (start_index : Z) : Prop :=
  isdir input_folder = true /\
  0 <= start_index < Z.of_nat (List.length (inputs_of input_folder)).

End Main.

(** A sample machine: the folder [in] holds [a], [b], [c] and a
    sub-folder; the program fails under valgrind on [b] and hangs on
    [a]. *)
Definition in_a : Path := mkInput "in/a" "a".
Definition in_b : Path := mkInput "in/b" "b".
Definition in_c : Path := mkInput "in/c" "c".
Definition in_sub : Path := mkInput "in/sub" "sub".

Definition sample_int (s : string) : option Z :=
  if String.eqb s "0" then Some 0
  else if String.eqb s "1" then Some 1
  else if String.eqb s "2" then Some 2
  else if String.eqb s "7" then Some 7
  else if String.eqb s "-1" then Some (-1)
  else None.

Definition sample_isdir (s : string) : bool := String.eqb s "in".

Definition sample_glob (s : string) : list Path :=
  if String.eqb s "in" then [in_a; in_b; in_c; in_sub] else [].

Definition sample_is_file (f : Path) : bool :=
  negb (String.eqb (file_name f) "sub").

Definition sample_run (cmd : list string) (f : Path) : run_outcome :=
  if String.eqb (file_name f) "a" then TimeoutExpired
  else if String.eqb (file_name f) "b" then Completed 42 "" "==1== Invalid read"
  else Completed 0 "" "".

Definition sample_main : list string -> Z * state :=
  main sample_int sample_isdir sample_glob sample_is_file sample_run
    (fun b => b).

End Valgrind.

(* ------------------------------------------------------------------ *)
(** *** The driver when a [print] can fail

    [print] raises when the standard output cannot take the text: the
    text cannot be encoded (the arrows and check marks of the messages on
    an ASCII terminal), or the output has been closed.  Inside the [try]
    of the loop such an exception is caught by [except Exception] and
    ends the batch with exit code 1; anywhere else, the handlers
    included, it leaves [main] and the process ends with exit code 1.
    Module [ValgrindIO] is the driver on such an output; [Valgrind.main]
    is the driver on an output that takes every text. *)

Module ValgrindIO.

Import Valgrind.

Local Open Scope string_scope.

Section Main.

Variable py_int : string -> option Z.
Variable isdir : string -> bool.
Variable sorted_glob : string -> list Path.
Variable is_file : Path -> bool.
Variable subprocess_run : list string -> Path -> run_outcome.
Variable decode : string -> string.

(** [print(text)] after the texts printed so far: [None] when it
    returns, [Some e] when it raises an exception whose [str] is [e]. *)
Variable print_raises : list string -> string -> option string.

(** Consecutive prints: the first one that raises ends them, with its
    exception. *)
Fixpoint print_all (texts : list string) (s : state)
    : state + string * state :=
  match texts with
  | [] => inl s
  | text :: rest =>
      match print_raises (printed s) text with
      | Some e => inr (e, s)
      | None => print_all rest (print text s)
      end
  end.

(** Prints followed by [sys.exit(code)]; an exception raised on the way
    is not caught and ends the process with exit code 1. *)
Definition finish (code : Z) (texts : list string) (s : state) : Z * state :=
  match print_all texts s with
  | inl s => (code, s)
  | inr (_, s) => (1, s)
  end.

(** The handler [except Exception as e]. *)
Definition on_exception (input_file : Path) (e : string) (s : state)
    : option Z * state :=
  let (code, s) :=
    finish 1
      [nl ++ times80 "=";
       "ERROR running valgrind with input: " ++ file_path input_file;
       "Exception: " ++ e;
       times80 "="] s in
  (Some code, s).

Fixpoint test_inputs (full_cmd : list string) (total : nat)
    (files : list Path) (idx : nat) (s : state) : option Z * state :=
  match files with
  | [] => (None, s)
  | input_file :: rest =>
      let i := S idx in
      match print_all
              [nl ++ "[" ++ str_nat i ++ "/" ++ str_nat total
                  ++ "] Testing with: " ++ file_name input_file;
               times80 "-"] s with
      | inr (_, s) => (Some 1, s)
      | inl s =>
          let s := start full_cmd input_file s in
          match subprocess_run full_cmd input_file with
          | Completed returncode stdout stderr =>
              (* the prints inside the [try], in order *)
              let in_try :=
                List.app
                  (if nonempty stderr then [decode stderr] else [])
                  (if (returncode =? 42)%Z then
                     List.app
                       [nl ++ times80 "=";
                        "VALGRIND ERROR DETECTED with input: "
                          ++ file_path input_file;
                        times80 "="]
                       (List.app
                          (if nonempty stdout
                           then ["STDOUT:"; decode stdout] else [])
                          [times80 "=";
                           "Stopped at input " ++ str_nat i ++ "/"
                             ++ str_nat total ++ ": "
                             ++ file_path input_file])
                   else
                     [if negb (returncode =? 0)%Z
                      then "→ Program exited with code "
                             ++ str_int returncode
                             ++ " (not a valgrind error)"
                      else "→ ✓ OK"]) in
              match print_all in_try s with
              | inr (e, s) => on_exception input_file e s
              | inl s =>
                  if (returncode =? 42)%Z then (Some 1, s)
                  else test_inputs full_cmd total rest (S idx) s
              end
          | TimeoutExpired =>
              match print_all
                      [nl ++ times80 "=";
                       "TIMEOUT (60s) with input: " ++ file_path input_file;
                       times80 "=";
                       "→ Skipping and continuing to next input..."] s with
              | inr (_, s) => (Some 1, s)
              | inl s => test_inputs full_cmd total rest (S idx) s
              end
          | OtherException e => on_exception input_file e s
          end
      end
  end.

Definition main (argv : list string) : Z * state :=
  let s := {| printed := []; tried := [] |} in
  match argv with
  | _ :: input_folder :: a2 :: rest =>
      let '(start_index, program_args) := start_and_program py_int a2 rest in
      if negb (isdir input_folder) then
        finish 1 ["Error: Input folder '" ++ input_folder
                    ++ "' does not exist"] s
      else
        let input_files := filter is_file (sorted_glob input_folder) in
        let n := List.length input_files in
        match input_files with
        | [] => finish 1 ["Error: No input files found in '"
                            ++ input_folder ++ "'"] s
        | _ =>
            if (start_index <? 0)%Z then
              finish 1 ["Error: start_index must be >= 0, got "
                          ++ str_int start_index] s
            else if (Z.of_nat n <=? start_index)%Z then
              finish 1 ["Error: start_index " ++ str_int start_index
                          ++ " is >= number of input files ("
                          ++ str_nat n ++ ")"] s
            else
              match print_all
                      (List.app
                         ["Found " ++ str_nat n ++ " input files"]
                         (List.app
                            (if (0 <? start_index)%Z
                             then ["Starting from input "
                                     ++ str_int start_index
                                     ++ " (skipping first "
                                     ++ str_int start_index ++ " inputs)"]
                             else [])
                            ["Program command: "
                               ++ String.concat " " program_args;
                             times80 "-"])) s with
              | inr (_, s) => (1, s)
              | inl s =>
                  match test_inputs (valgrind_cmd ++ program_args)%list n
                          (skipn (Z.to_nat start_index) input_files)
                          (Z.to_nat start_index) s with
                  | (Some code, s) => (code, s)
                  | (None, s) =>
                      let num_tested := (Z.of_nat n - start_index)%Z in
                      finish 0
                        [times80 "-";
                         "✓ SUCCESS: All " ++ str_int num_tested
                           ++ " inputs completed without valgrind errors"] s
                  end
              end
        end
  | _ => finish 1 usage s
  end.

End Main.

(** Two standard outputs: one that takes every text, one that takes
    ASCII only. *)
Definition takes_all (history : list string) (text : string) : option string :=
  None.

Definition ascii_only (history : list string) (text : string) : option string :=
  if forallb (fun c => Nat.ltb (nat_of_ascii c) 128) (list_ascii_of_string text)
  then None
  else Some "'ascii' codec can't encode character".

Definition sample_main (print_raises : list string -> string -> option string)
    : list string -> Z * state :=
  main sample_int sample_isdir sample_glob sample_is_file sample_run
    (fun b => b) print_raises.

End ValgrindIO.

(* ================================================================== *)
(** ** Basic facts *)

Example scenario_rec :
  map render (output (run Samples.v_rec "r" (StructPtrEnumerator []))) =
  ["r.name : char * = 0x1000" ++ nl;
   nl ++ "Total pointer fields: 1" ++ nl]%string.
Proof. reflexivity. Qed.

Lemma strip_typedefs_fixed :
  forall t u, strip_typedefs t = Some u -> strip_typedefs u = Some u.
Proof.
  fix IH 1.
  intros [g s z sh] u.
  destruct sh as [ | r el | fs | fs | [t'|] | k ]; simpl;
    try (intros [= <-]; reflexivity).
  apply IH.
Qed.

Lemma strip_idem : forall t, strip (strip t) = strip t.
Proof.
  intros t. unfold strip at 2 3.
  destruct (strip_typedefs t) as [u|] eqn:E.
  - unfold strip. now rewrite (strip_typedefs_fixed _ _ E).
  - unfold strip. now rewrite E.
Qed.

(** The walker's case analysis is the script's chain of tests. *)
Lemma is_ptr_shape t : is_ptr (strip t) = true <-> shape (strip t) = Ptr.
Proof.
  unfold is_ptr, code. rewrite strip_idem.
  destruct (shape (strip t)) as [ | | | | | []]; simpl; split; congruence.
Qed.

Lemma is_array_shape t :
  is_array (strip t) = true <-> exists r el, shape (strip t) = Array r el.
Proof.
  unfold is_array, code. rewrite strip_idem.
  destruct (shape (strip t)) as [ | r el | | | | []]; simpl; split;
    try congruence; try (intros (? & ? & ?); congruence).
  intros _. now exists r, el.
Qed.

Lemma is_struct_shape t :
  is_struct (strip t) = true <-> exists fs, shape (strip t) = Struct fs.
Proof.
  unfold is_struct, code. rewrite strip_idem.
  destruct (shape (strip t)) as [ | | fs | | | []]; simpl; split;
    try congruence; try (intros (? & ?); congruence).
  intros _. now exists fs.
Qed.

Lemma is_union_shape t :
  is_union (strip t) = true <-> exists fs, shape (strip t) = Union fs.
Proof.
  unfold is_union, code. rewrite strip_idem.
  destruct (shape (strip t)) as [ | | | fs | | []]; simpl; split;
    try congruence; try (intros (? & ?); congruence).
  intros _. now exists fs.
Qed.

(** The walker written with the script's tests, in the script's order. *)
Lemma walk_body_as_tests sub val path s :
  walk_body sub val path s =
  let t := strip (vtype val) in
  if is_ptr t then _report_pointer val t path s
  else if is_array t then
    match array_len t, target t with
    | Some n, _ => for_each (py_range n) (array_step sub path) s
    | None, Some el => gdb_write (UnknownLength path (typename el)) s
    | None, None => s
    end
  else if is_struct t then
    for_each (enumerate (fields t)) (struct_step sub path) s
  else if is_union t then
    for_each (enumerate (fields t)) (union_step sub path) s
  else s.
Proof.
  unfold walk_body, is_ptr, is_array, is_struct, is_union, code, fields, target.
  cbv zeta. rewrite !strip_idem.
  destruct (shape (strip (vtype val))) as [ | r el | fs | fs | u | [] ];
    simpl; try reflexivity.
Qed.

Example format_x_samples :
  hex0x 4096 = "0x1000"%string /\ hex0x 0 = "0x0"%string /\
  hex0x 3735928559 = "0xdeadbeef"%string /\ format_x (-255) = "-ff"%string /\
  str_int 120 = "120"%string /\ str_nat 0 = "0"%string.
Proof. repeat split. Qed.

(** *** The algebra of [emits] *)

Lemma reports_app l1 l2 : reports (l1 ++ l2) = (reports l1 + reports l2)%nat.
Proof. unfold reports. now rewrite filter_app, length_app. Qed.

Lemma emits_nil : emits (fun s => s) [].
Proof.
  intros [c o]. simpl. f_equal; [lia | now rewrite app_nil_r].
Qed.

Lemma emits_diag l : is_report l = false -> emits (gdb_write l) [l].
Proof.
  intros H [c o]. unfold gdb_write, reports. simpl. rewrite H. simpl.
  f_equal. lia.
Qed.

Lemma emits_report pval ptype path :
  emits (_report_pointer pval ptype path)
        [Report path (typename ptype) (fmt_addr pval)].
Proof. intros [c o]. reflexivity. Qed.

Lemma emits_seq w1 w2 l1 l2 :
  emits w1 l1 -> emits w2 l2 -> emits (fun s => w2 (w1 s)) (l1 ++ l2).
Proof.
  intros H1 H2 s. rewrite H1, H2. simpl.
  rewrite reports_app, Nat2Z.inj_add, app_assoc. f_equal. lia.
Qed.

Lemma emits_for_each {A : Type} (xs : list A) body tr :
  (forall x, In x xs -> emits (body x) (tr x)) ->
  emits (for_each xs body) (flat_map tr xs).
Proof.
  unfold for_each. induction xs as [|x xs IH]; intros H.
  - apply emits_nil.
  - simpl. apply (emits_seq (body x) (fun s => fold_left _ xs s)).
    + apply H. now left.
    + apply IH. intros y Hy. apply H. now right.
Qed.

(** *** The walk, one level at a time *)

Lemma subscript_map {A B : Type} (f : A -> B) l k :
  subscript (map (option_map f) l) k = option_map f (subscript l k).
Proof.
  unfold subscript. rewrite nth_error_map.
  now destruct (nth_error l k) as [[x|]|].
Qed.

Lemma _walk_value_eq val path s :
  _walk_value val path s =
  walk_body (with_walkers _walk_value val) val path s.
Proof. now destruct val. Qed.

Lemma subscript_on_sub (P : value -> Prop) sub k c :
  Forall (on_sub P) sub -> subscript sub k = Some c -> P c.
Proof.
  intros HF. unfold subscript.
  destruct (nth_error sub k) as [[x|]|] eqn:E; try discriminate.
  intros [= <-]. apply nth_error_In in E.
  rewrite Forall_forall in HF. exact (HF _ E).
Qed.

Section OneLevel.

Variable val : value.
Variable path : string.

Hypothesis below :
  forall k c, getitem val k = Some c ->
  forall p, emits (_walk_value c p) (trace c p).

Local Abbreviation sub := (with_walkers _walk_value val).

Lemma array_step_emits i :
  emits (array_step sub path i) (elem_trace val path i).
Proof.
  unfold array_step, elem_trace, with_walkers, getitem. rewrite subscript_map.
  destruct (subscript (vsub val) i) as [c|] eqn:E; simpl.
  - now apply below with (k := i).
  - now apply emits_diag.
Qed.

Lemma member_step_emits k f :
  emits (member_step sub path k f) (member_trace val path k f).
Proof.
  unfold member_step, member_trace, with_walkers, getitem. rewrite subscript_map.
  destruct (subscript (vsub val) k) as [c|] eqn:E; simpl.
  - destruct (is_ptr (strip (ftype f))).
    + apply emits_report.
    + destruct (is_array _ || is_struct _ || is_union _).
      * now apply below with (k := k).
      * apply emits_nil.
  - now apply emits_diag.
Qed.

Lemma struct_step_emits kf :
  emits (struct_step sub path kf) (struct_field_trace val path kf).
Proof.
  destruct kf as [k f]. unfold struct_step, struct_field_trace. simpl.
  destruct (artificial f).
  - apply emits_nil.
  - apply member_step_emits.
Qed.

Lemma union_step_emits kf :
  emits (union_step sub path kf) (union_member_trace val path kf).
Proof. destruct kf as [k f]. apply member_step_emits. Qed.

Lemma walk_level : emits (_walk_value val path) (trace_unfold val path).
Proof.
  intros s. rewrite _walk_value_eq. revert s.
  unfold walk_body, trace_unfold.
  destruct (shape (strip (vtype val))) as [ | r el | fs | fs | u | k ].
  - apply emits_report.
  - destruct (array_len (strip (vtype val))) as [n|].
    + apply emits_for_each. intros i _. apply array_step_emits.
    + now apply emits_diag.
  - apply emits_for_each. intros kf _. apply struct_step_emits.
  - apply emits_for_each. intros kf _. apply union_step_emits.
  - apply emits_nil.
  - apply emits_nil.
Qed.

End OneLevel.

Lemma emits_trace val path ls :
  emits (_walk_value val path) ls -> trace val path = ls.
Proof. intros H. unfold trace. now rewrite H. Qed.

(** The walk appends its trace and counts the Report Records in it. *)
Lemma walk_emits : forall val path, emits (_walk_value val path) (trace val path).
Proof.
  induction val as [t i s sub IH] using value_nested_ind. intros path.
  assert (L : emits (_walk_value (Value t i s sub) path)
                (trace_unfold (Value t i s sub) path)).
  { apply walk_level. intros k c Hk.
    exact (subscript_on_sub _ _ _ _ IH Hk). }
  now rewrite (emits_trace _ _ _ L).
Qed.

(** The trace of a value is built from the traces of its sub-values. *)
Lemma trace_eq val path : trace val path = trace_unfold val path.
Proof.
  apply emits_trace, walk_level. intros k c _ p. apply walk_emits.
Qed.

Lemma run_eq val root_name s :
  run val root_name s =
  {| count := Z.of_nat (reports (trace val root_name));
     output := output s ++ trace val root_name
                 ++ [Total (Z.of_nat (reports (trace val root_name)))] |}.
Proof.
  unfold run, gdb_write. rewrite walk_emits. simpl.
  now rewrite <- app_assoc.
Qed.

(* ================================================================== *)
(** ** The total and the Report Records *)

(** C1: for every root value and path, the total that [run] prints is
    exactly the number of Report Records written during the walk, and it
    is the enumerator's final count; the diagnostic lines in the trace
    (inaccessible element, inaccessible field, unknown-length array) are
    written but not counted. *)
Theorem run_total_is_number_of_reports :
  forall (val : value) (root_name : string) (s : state),
    let s' := run val root_name s in
    let ls := trace val root_name in
    output s' = output s ++ ls ++ [Total (count s')] /\
    count s' = Z.of_nat (List.length (filter is_report ls)) /\
    (List.length (filter is_report ls)
     + List.length (filter (fun l => negb (is_report l)) ls)
     = List.length ls)%nat /\
    (forall l s0, count (gdb_write l s0) = count s0).
Proof.
  intros val root_name s s' ls. subst s' ls. rewrite run_eq. simpl.
  repeat split.
  apply filter_length.
Qed.

(* ================================================================== *)
(** ** Pointers are leaves *)



(* ================================================================== *)
(** ** Arrays and their length *)

(** C4: for an array value whose element count cannot be determined, the
    walk writes exactly one line, which names the element type and says
    that the length is unknown; the count is unchanged and no element is
    visited. *)
Theorem unknown_length_array_is_skipped :
  forall (val : value) (path : string) (s : state),
    is_array (strip (vtype val)) = true ->
    array_len (strip (vtype val)) = None ->
    exists el,
      target (strip (vtype val)) = Some el /\
      _walk_value val path s =
        {| count := count s;
           output := output s ++ [UnknownLength path (typename el)] |} /\
      render (UnknownLength path (typename el)) =
        (path ++ " : <array of " ++ typename el
              ++ "> (length unknown; skipped)" ++ nl)%string.
Proof.
  intros val path s Ha Hn. apply is_array_shape in Ha.
  destruct Ha as (r & el & Hs). exists el. repeat split.
  - unfold target. now rewrite Hs.
  - rewrite _walk_value_eq. unfold walk_body. now rewrite Hs, Hn.
Qed.

Lemma unknown_length_array_is_skipped_witness :
  exists el,
    target (strip (vtype Samples.v_flex)) = Some el /\
    _walk_value Samples.v_flex "tail" (StructPtrEnumerator []) =
      {| count := 0; output := [UnknownLength "tail" (typename el)] |} /\
    render (UnknownLength "tail" (typename el)) =
      ("tail" ++ " : <array of " ++ typename el
              ++ "> (length unknown; skipped)" ++ nl)%string.
Proof.
  exact (unknown_length_array_is_skipped Samples.v_flex "tail"
           (StructPtrEnumerator []) eq_refl eq_refl).
Defined.

Lemma for_each_ext {A : Type} (xs : list A) f g s :
  (forall x s0, f x s0 = g x s0) -> for_each xs f s = for_each xs g s.
Proof.
  intros H. unfold for_each. revert s.
  induction xs as [|x xs IH]; intros s; simpl; [reflexivity|].
  now rewrite H, IH.
Qed.

Lemma array_step_eq val path i s :
  array_step (with_walkers _walk_value val) path i s = walk_elem val path i s.
Proof.
  unfold array_step, walk_elem, with_walkers, getitem. rewrite subscript_map.
  now destruct (subscript (vsub val) i).
Qed.

(** C10: when the bounds query of an array type fails and the sizes of the
    array and of its element are known and positive, the length is the
    integer quotient of the two sizes, and the walk runs the element loop
    over every index below it instead of writing the unknown-length
    line. *)
Theorem sizeof_fallback_length :
  forall (val : value) (path : string) (s : state) (el : type) (ts es : Z),
    is_array (strip (vtype val)) = true ->
    range (strip (vtype val)) = None ->
    target (strip (vtype val)) = Some el ->
    sizeof (strip (vtype val)) = Some ts ->
    sizeof el = Some es ->
    0 < ts -> 0 < es ->
    array_len (strip (vtype val)) = Some (ts / es) /\
    _walk_value val path s = for_each (py_range (ts / es)) (walk_elem val path) s /\
    trace val path = flat_map (elem_trace val path) (seq 0 (Z.to_nat (ts / es))).
Proof.
  intros val path s el ts es Ha Hr Ht Hts Hes Pts Pes.
  assert (L : array_len (strip (vtype val)) = Some (ts / es)).
  { unfold array_len. rewrite strip_idem, Hr, Ht, Hes, Hts.
    apply Z.ltb_lt in Pts, Pes. now rewrite Pts, Pes. }
  apply is_array_shape in Ha. destruct Ha as (r & el' & Hs).
  repeat split; trivial.
  - rewrite _walk_value_eq. unfold walk_body. rewrite Hs, L.
    apply for_each_ext. intros i s0. apply array_step_eq.
  - rewrite trace_eq. unfold trace_unfold. now rewrite Hs, L.
Qed.

Lemma sizeof_fallback_length_witness :
  array_len (strip (vtype Samples.v_sized)) = Some (16 / 8) /\
  _walk_value Samples.v_sized "v" (StructPtrEnumerator []) =
    for_each (py_range (16 / 8)) (walk_elem Samples.v_sized "v")
      (StructPtrEnumerator []) /\
  trace Samples.v_sized "v" =
    flat_map (elem_trace Samples.v_sized "v") (seq 0 (Z.to_nat (16 / 8))).
Proof.
  apply (sizeof_fallback_length Samples.v_sized "v" (StructPtrEnumerator [])
           Samples.t_voidp 16 8); try reflexivity; lia.
Defined.

Example sized_array_is_walked :
  map render (trace Samples.v_sized "v") =
  ["v[0] : void * = 0x1000" ++ nl; "v[1] : void * = 0x2000" ++ nl]%string.
Proof. reflexivity. Qed.

(* ================================================================== *)
(** ** The order of the lines *)

Lemma trace_array val path n :
  is_array (strip (vtype val)) = true ->
  array_len (strip (vtype val)) = Some n ->
  trace val path = flat_map (elem_trace val path) (py_range n).
Proof.
  intros Ha Hn. apply is_array_shape in Ha. destruct Ha as (r & el & Hs).
  rewrite trace_eq. unfold trace_unfold. now rewrite Hs, Hn.
Qed.

Lemma trace_struct val path :
  is_struct (strip (vtype val)) = true ->
  trace val path =
  flat_map (struct_field_trace val path) (enumerate (fields (strip (vtype val)))).
Proof.
  intros Ha. apply is_struct_shape in Ha. destruct Ha as (fs & Hs).
  rewrite trace_eq. unfold trace_unfold, fields. now rewrite Hs.
Qed.

Lemma trace_union val path :
  is_union (strip (vtype val)) = true ->
  trace val path =
  flat_map (union_member_trace val path) (enumerate (fields (strip (vtype val)))).
Proof.
  intros Ha. apply is_union_shape in Ha. destruct Ha as (fs & Hs).
  rewrite trace_eq. unfold trace_unfold, fields. now rewrite Hs.
Qed.


(** C6: the lines come in depth-first pre-order.  The trace of an array
    is the concatenation, for the indices 0, 1, ... in ascending order, of
    what each element contributes; the trace of a struct or union is the
    concatenation, in declaration order, of what each field contributes;
    a contribution is the whole trace of the sub-value.  For a struct with
    fields a, b, c, where b is an array of two pointers, the Report
    Records are a (if it is a pointer), b[0], b[1], c (if it is a
    pointer). *)
Theorem lines_in_traversal_order :
  forall (val : value) (path : string),
    (forall n,
        is_array (strip (vtype val)) = true ->
        array_len (strip (vtype val)) = Some n ->
        trace val path =
        flat_map (elem_trace val path) (seq 0 (Z.to_nat n))) /\
    (is_struct (strip (vtype val)) = true ->
        trace val path =
        flat_map (struct_field_trace val path)
          (combine (seq 0 (List.length (fields (strip (vtype val)))))
                   (fields (strip (vtype val))))) /\
    (is_union (strip (vtype val)) = true ->
        trace val path =
        flat_map (union_member_trace val path)
          (combine (seq 0 (List.length (fields (strip (vtype val)))))
                   (fields (strip (vtype val))))) /\
    (forall (pa pc : bool) (a b0 b1 c : Z),
        trace (Samples.v_abc pa pc a b0 b1 c) "s" =
        (if pa then [Report "s.a" "void *" (hex0x a)] else [])
        ++ [Report "s.b[0]" "void *" (hex0x b0);
            Report "s.b[1]" "void *" (hex0x b1)]
        ++ (if pc then [Report "s.c" "void *" (hex0x c)] else [])).
Proof.
  intros val path. split; [|split; [|split]].
  - intros n Ha Hn. now apply trace_array.
  - apply trace_struct.
  - apply trace_union.
  - intros pa pc a b0 b1 c. now destruct pa, pc.
Qed.

Lemma lines_in_traversal_order_witness :
  trace Samples.v_hole "slot" =
    flat_map (elem_trace Samples.v_hole "slot") (seq 0 (Z.to_nat 3)) /\
  trace Samples.v_struct_hole "s" =
    flat_map (struct_field_trace Samples.v_struct_hole "s")
      (combine (seq 0 3) Samples.pqr) /\
  trace Samples.v_union_hole "u" =
    flat_map (union_member_trace Samples.v_union_hole "u")
      (combine (seq 0 3) Samples.pqr).
Proof.
  split; [|split].
  - exact (proj1 (lines_in_traversal_order Samples.v_hole "slot")
             3 eq_refl eq_refl).
  - exact (proj1 (proj2 (lines_in_traversal_order Samples.v_struct_hole "s"))
             eq_refl).
  - exact (proj1 (proj2 (proj2
             (lines_in_traversal_order Samples.v_union_hole "u"))) eq_refl).
Defined.

Example abc_order :
  map render (trace (Samples.v_abc true false 16 32 48 64) "s") =
  ["s.a : void * = 0x10" ++ nl;
   "s.b[0] : void * = 0x20" ++ nl;
   "s.b[1] : void * = 0x30" ++ nl]%string.
Proof. reflexivity. Qed.

(* ================================================================== *)
(** ** Sub-values that cannot be read *)







Example hole_is_reported_and_passed :
  map render (output (run Samples.v_hole "slot" (StructPtrEnumerator []))) =
  ["slot[0] : void * = 0x1000" ++ nl;
   "slot[1] : <inaccessible element>" ++ nl;
   "slot[2] : void * = 0x3000" ++ nl;
   nl ++ "Total pointer fields: 2" ++ nl]%string.
Proof. reflexivity. Qed.

(* ================================================================== *)
(** ** Unions *)

(** Where no member is flagged artificial, a union is walked as the
    struct with the same members is. *)
Lemma union_walked_like_struct vs vu path :
  is_struct (strip (vtype vs)) = true ->
  is_union (strip (vtype vu)) = true ->
  fields (strip (vtype vu)) = fields (strip (vtype vs)) ->
  vsub vu = vsub vs ->
  Forall (fun f => artificial f = false) (fields (strip (vtype vs))) ->
  trace vu path = trace vs path.
Proof.
  intros Hs Hu Hf Hsub Hall.
  rewrite (trace_struct _ _ Hs), (trace_union _ _ Hu), Hf.
  rewrite !flat_map_concat_map. f_equal.
  apply map_ext_in. intros [k f] Hin.
  unfold union_member_trace, struct_field_trace. simpl.
  apply in_combine_r in Hin. rewrite Forall_forall in Hall.
  rewrite (Hall _ Hin). unfold member_trace, getitem. now rewrite Hsub.
Qed.

(** Two pointer members that share their storage give two Report
    Records. *)
Example union_alternatives_both_reported :
  let u := Type_ (Some "alt") "union alt" (Some 8)
             (Union [Field (Some "text") false Samples.t_charp;
                     Field (Some "raw") false Samples.t_voidp]) in
  let v := Value u None "{...}"
             [Some (Samples.v_ptr Samples.t_charp 4096);
              Some (Samples.v_ptr Samples.t_voidp 4096)] in
  run v "u" (StructPtrEnumerator []) =
    {| count := 2;
       output := [Report "u.text" "char *" "0x1000";
                  Report "u.raw" "void *" "0x1000"; Total 2] |}.
Proof. reflexivity. Qed.

(** C3, where the script departs from it: a union member flagged as
    compiler-synthetic is not skipped.  The union branch has no test of
    the flag, so the pointer member [vp] of the sample union is reported
    and counted, while the struct with the same single member yields
    nothing. *)
Theorem union_reports_artificial_member :
  is_union (strip (vtype Samples.v_union_artificial)) = true /\
  map artificial (fields (strip (vtype Samples.v_union_artificial))) = [true] /\
  run Samples.v_union_artificial "u" (StructPtrEnumerator []) =
    {| count := 1;
       output := [Report "u.vp" "void *" "0x1000"; Total 1] |} /\
  run Samples.v_struct_artificial "u" (StructPtrEnumerator []) =
    {| count := 0; output := [Total 0] |}.
Proof. repeat split. Qed.

(* ================================================================== *)
(** ** The command *)

Lemma live_walk_value_eq val path s :
  Live._walk_value val path s =
  Live.walk_body (Live.with_walkers Live._walk_value val) val path s.
Proof. now destruct val. Qed.

Lemma live_for_each_normal {A : Type} (xs : list A) body body' :
  (forall x s, body x s = Live.Normal (body' x s)) ->
  forall s, Live.for_each xs body s = Live.Normal (for_each xs body' s).
Proof.
  intros H. unfold for_each.
  induction xs as [|x xs IH]; intros s; simpl; [reflexivity|].
  now rewrite H, IH.
Qed.

Lemma live_fmt_addr_of_printable v :
  Live.fmt_addr (Live.of_printable v) = inr (fmt_addr v).
Proof. destruct v as [t [n|] text sub]; reflexivity. Qed.

(** On values whose printing never fails the walk returns, with the
    state that the first embedding computes. *)
Lemma live_walk_of_printable :
  forall v path s,
    Live._walk_value (Live.of_printable v) path s =
    Live.Normal (_walk_value v path s).
Proof.
  induction v as [t i text sub IH] using value_nested_ind. intros path s.
  rewrite live_walk_value_eq, _walk_value_eq.
  set (v := Value t i text sub).
  assert (at_k : forall k,
    subscript (Live.with_walkers Live._walk_value (Live.of_printable v)) k =
    option_map (fun c => (Live.of_printable c,
                          Live._walk_value (Live.of_printable c)))
      (subscript sub k)).
  { intros k. unfold Live.with_walkers. simpl. rewrite !subscript_map.
    now destruct (subscript sub k). }
  assert (at_k' : forall k,
    subscript (with_walkers _walk_value v) k =
    option_map (fun c => (c, _walk_value c)) (subscript sub k)).
  { intros k. unfold with_walkers. simpl. now rewrite subscript_map. }
  assert (below : forall k c q s0,
    subscript sub k = Some c ->
    Live._walk_value (Live.of_printable c) q s0 =
    Live.Normal (_walk_value c q s0)).
  { intros k c q s0 Hk. exact (subscript_on_sub _ _ _ _ IH Hk q s0). }
  assert (elems : forall i0 s0,
    Live.array_step (Live.with_walkers Live._walk_value (Live.of_printable v))
      path i0 s0 =
    Live.Normal (array_step (with_walkers _walk_value v) path i0 s0)).
  { intros i0 s0. unfold Live.array_step, array_step.
    rewrite at_k, at_k'.
    destruct (subscript sub i0) as [c|] eqn:Hk; simpl; [|reflexivity].
    exact (below i0 c _ s0 Hk). }
  assert (members : forall k f s0,
    Live.member_step (Live.with_walkers Live._walk_value (Live.of_printable v))
      path k f s0 =
    Live.Normal (member_step (with_walkers _walk_value v) path k f s0)).
  { intros k f s0. unfold Live.member_step, member_step.
    rewrite at_k, at_k'.
    destruct (subscript sub k) as [c|] eqn:Hk; simpl; [|reflexivity].
    destruct (is_ptr (strip (ftype f))).
    - unfold Live._report_pointer. now rewrite live_fmt_addr_of_printable.
    - destruct (is_array _ || is_struct _ || is_union _); [|reflexivity].
      exact (below k c _ s0 Hk). }
  unfold Live.walk_body, walk_body.
  change (Live.vtype (Live.of_printable v)) with (vtype v).
  destruct (shape (strip (vtype v))) as [ | r el | fs | fs | u | k ];
    try reflexivity.
  - unfold Live._report_pointer. now rewrite live_fmt_addr_of_printable.
  - destruct (array_len (strip (vtype v))) as [n|]; [|reflexivity].
    apply live_for_each_normal. exact elems.
  - apply live_for_each_normal. intros [k f] s0. simpl.
    destruct (artificial f); [reflexivity|apply members].
  - apply live_for_each_normal. intros [k f] s0. apply members.
Qed.

(** A pointer that can be neither converted nor printed makes the walk
    raise, at once and with nothing written for it. *)
Lemma live_unprintable_pointer_raises v path s e :
  is_ptr (strip (Live.vtype v)) = true ->
  Live.vint v = None -> Live.vstr v = inl e ->
  Live._walk_value v path s = Live.Raised e s.
Proof.
  intros Hp Hi Hs. apply is_ptr_shape in Hp.
  rewrite live_walk_value_eq. unfold Live.walk_body. rewrite Hp.
  unfold Live._report_pointer, Live.fmt_addr. now rewrite Hi, Hs.
Qed.

(** What the command does with the root: a failure to obtain it is a
    [GdbError] with its message and nothing written; a root whose values
    can all be printed makes the command return, with the trace and the
    total written. *)
Lemma live_invoke_root :
  forall (string_to_argv : string -> string + list string)
         (parse_and_eval : string -> string + Live.value)
         (arg : string) (out : list line),
    let result := Live.invoke string_to_argv parse_and_eval arg out in
    (forall e, string_to_argv arg = inl e ->
       result = (Live.GdbError e, out)) /\
    (string_to_argv arg = inr [] ->
       result = (Live.GdbError "usage: structptrs EXPR", out)) /\
    (forall argv e,
       string_to_argv arg = inr argv -> argv <> [] ->
       parse_and_eval (String.concat " " argv) = inl e ->
       result = (Live.GdbError ("failed to evaluate EXPR: " ++ e)%string, out)) /\
    (forall argv val,
       string_to_argv arg = inr argv -> argv <> [] ->
       parse_and_eval (String.concat " " argv) = inr (Live.of_printable val) ->
       let ls := trace val (String.concat " " argv) in
       result = (Live.Returned, out ++ ls ++ [Total (Z.of_nat (reports ls))])).
Proof.
  intros string_to_argv parse_and_eval arg out result. subst result.
  unfold Live.invoke.
  destruct (string_to_argv arg) as [e|[|a argv]] eqn:Ea;
    [ | | destruct (parse_and_eval (String.concat " " (a :: argv)))
            as [e|val] eqn:Ee ];
    (split; [|split; [|split]]).
  all: try (intros; congruence).
  intros argv' val' [= <-] _ H. rewrite Ee in H. injection H as ->.
  unfold Live.run. rewrite live_walk_of_printable, walk_emits. simpl.
  now rewrite <- app_assoc.
Qed.

(** C7, where the script departs from it: a failure inside the walk
    leaves the command.  [q], the second member of the sample struct, is
    a pointer whose contents cannot be read, so that [int(v)] raises and
    [str(v)], called in the handler, raises too.  Nothing catches that:
    the exception leaves [fmt_addr], the walk, [run] and [invoke] as it
    is, not as a [GdbError]; the record of [p] has been written, [q] gets
    no diagnostic line, [r] is not visited and no total is written.  With
    such a pointer as the root the command raises with nothing
    written. *)
Theorem unprintable_pointer_aborts_the_command :
  Live.invoke Samples.argv_of Samples.eval_of "s" [] =
    (Live.Uncaught "Cannot access memory at address 0x0",
     [Report "s.p" "void *" "0x1000"]) /\
  Live.invoke Samples.argv_of Samples.eval_of "*q" [] =
    (Live.Uncaught "Cannot access memory at address 0x0", []).
Proof. split; reflexivity. Qed.

Example live_invoke_samples :
  Live.invoke Samples.argv_of Samples.eval_of "'r" [] =
    (Live.GdbError "No closing quotation", []) /\
  Live.invoke Samples.argv_of Samples.eval_of "" [] =
    (Live.GdbError "usage: structptrs EXPR", []) /\
  Live.invoke Samples.argv_of Samples.eval_of "x" [] =
    (Live.GdbError "failed to evaluate EXPR: No symbol in current context.",
     []) /\
  Live.invoke Samples.argv_of Samples.eval_of "r" [] =
    (Live.Returned, [Report "r.name" "char *" "0x1000"; Total 1]).
Proof. repeat split. Qed.

(* ================================================================== *)
(** ** The printed address *)

Lemma string_of_uint_lower_hex (d : Hexadecimal.uint) :
  all_lower_hex (HexadecimalString.NilEmpty.string_of_uint d).
Proof.
  unfold all_lower_hex.
  induction d; simpl; constructor; trivial;
    unfold lower_hex_digits; simpl; tauto.
Qed.

Lemma format_digits_lower_hex (d : Hexadecimal.uint) :
  all_lower_hex (HexadecimalString.NilZero.string_of_uint d).
Proof.
  destruct d; try apply string_of_uint_lower_hex.
  unfold all_lower_hex, lower_hex_digits. simpl. constructor; [tauto|constructor].
Qed.

Lemma hex_decode_digits (d : Hexadecimal.uint) :
  hex_decode (HexadecimalString.NilZero.string_of_uint d) = Some (Z.of_hex_uint d).
Proof.
  unfold hex_decode.
  destruct d; try reflexivity;
    (rewrite HexadecimalString.NilZero.usu by discriminate; reflexivity).
Qed.

Lemma hex0x_nonneg (n : Z) :
  0 <= n ->
  exists digits,
    hex0x n = ("0x" ++ digits)%string /\
    all_lower_hex digits /\ hex_decode digits = Some n.
Proof.
  intros Hn. unfold hex0x, format_x.
  destruct (Z.to_hex_int n) as [d|d] eqn:E.
  - exists (HexadecimalString.NilZero.string_of_uint d). repeat split.
    + apply format_digits_lower_hex.
    + rewrite hex_decode_digits. f_equal.
      change (Z.of_hex_uint d) with (Z.of_hex_int (Hexadecimal.Pos d)).
      rewrite <- E. apply HexadecimalZ.of_to.
  - destruct n; simpl in E; try discriminate. lia.
Qed.

Lemma in_enumerate_from {A : Type} (fs : list A) :
  forall k0 k f,
    In (k, f) (enumerate_from k0 fs) <->
    (k0 <= k)%nat /\ nth_error fs (k - k0) = Some f.
Proof.
  unfold enumerate_from.
  induction fs as [|x fs IH]; intros k0 k f; simpl.
  - split; [intros []|]. intros [_ H]. now destruct (k - k0)%nat.
  - rewrite IH. split.
    + intros [[= <- <-]|[Hle Hn]].
      * split; [lia|]. now rewrite Nat.sub_diag.
      * split; [lia|]. now replace (k - k0)%nat with (S (k - S k0)) by lia.
    + intros [Hle Hn]. destruct (Nat.eq_dec k0 k) as [<-|Hne].
      * left. rewrite Nat.sub_diag in Hn. simpl in Hn. now injection Hn as <-.
      * right. split; [lia|].
        now replace (k - k0)%nat with (S (k - S k0)) in Hn by lia.
Qed.

Lemma in_enumerate {A : Type} (fs : list A) k f :
  In (k, f) (enumerate fs) <-> nth_error fs k = Some f.
Proof.
  unfold enumerate. rewrite in_enumerate_from, Nat.sub_0_r.
  split; [now intros [_ H]|]. intros H. split; [lia|exact H].
Qed.

(** Every Report Record of a walk is the record of a pointer the walk
    reaches: it stands at that pointer's path, under that pointer's type
    name, with that pointer's formatted address. *)
Lemma report_is_reached :
  forall (val : value) (path p tn addr : string),
    In (Report p tn addr) (trace val path) ->
    exists pval ptype,
      reaches val path pval ptype p /\
      tn = typename ptype /\ addr = fmt_addr pval.
Proof.
  induction val as [t i s sub IH] using value_nested_ind.
  intros path p tn addr. rewrite trace_eq. unfold trace_unfold.
  set (val := Value t i s sub).
  assert (below : forall k c q,
             getitem val k = Some c ->
             In (Report p tn addr) (trace c q) ->
             exists pval ptype,
               reaches c q pval ptype p /\
               tn = typename ptype /\ addr = fmt_addr pval).
  { intros k c q Hk Hin.
    exact (subscript_on_sub _ _ _ _ IH Hk q p tn addr Hin). }
  assert (member : forall k f,
             visits val k f ->
             In (Report p tn addr) (member_trace val path k f) ->
             exists pval ptype,
               reaches val path pval ptype p /\
               tn = typename ptype /\ addr = fmt_addr pval).
  { intros k f Hv. unfold member_trace.
    destruct (getitem val k) as [fval|] eqn:Hk.
    - destruct (is_ptr (strip (ftype f))) eqn:Hp.
      + intros [[= <- <- <-]|[]]. exists fval, (strip (ftype f)).
        split; [|split; reflexivity].
        now apply (reaches_pointer_member val path k f fval).
      + destruct (is_array _ || is_struct _ || is_union _) eqn:Hagg.
        * intros Hin.
          destruct (below k fval _ Hk Hin) as (pval & ptype & Hr & Ht & Ha).
          exists pval, ptype. split; [|split; assumption].
          now apply (reaches_in_member val path k f fval).
        * intros [].
    - intros [[=]|[]]. }
  destruct (shape (strip (vtype val))) as [ | r el | fs | fs | u | k ] eqn:Hsh.
  - intros [[= <- <- <-]|[]]. exists val, (strip (vtype val)).
    split; [|split; reflexivity].
    apply reaches_root. now apply is_ptr_shape.
  - assert (Ha : is_array (strip (vtype val)) = true).
    { apply is_array_shape. now exists r, el. }
    destruct (array_len (strip (vtype val))) as [n|] eqn:Hn.
    + intros Hin. apply in_flat_map in Hin. destruct Hin as (j & Hj & Hin).
      apply in_seq in Hj. unfold elem_trace in Hin.
      destruct (getitem val j) as [c|] eqn:Hg.
      * destruct (below j c _ Hg Hin) as (pval & ptype & Hr & Ht & Hd).
        exists pval, ptype. split; [|split; assumption].
        apply (reaches_in_element val path n j c); trivial. lia.
      * destruct Hin as [[=]|[]].
    + intros [[=]|[]].
  - assert (Hs : is_struct (strip (vtype val)) = true).
    { apply is_struct_shape. now exists fs. }
    intros Hin. apply in_flat_map in Hin. destruct Hin as ([k f] & Hkf & Hin).
    unfold struct_field_trace in Hin. simpl in Hin.
    destruct (artificial f) eqn:Hart; [destruct Hin|].
    apply (member k f); [|exact Hin].
    split; [|left; now split].
    unfold fields. rewrite Hsh. now apply in_enumerate.
  - assert (Hu : is_union (strip (vtype val)) = true).
    { apply is_union_shape. now exists fs. }
    intros Hin. apply in_flat_map in Hin. destruct Hin as ([k f] & Hkf & Hin).
    apply (member k f); [|exact Hin].
    split; [|now right].
    unfold fields. rewrite Hsh. now apply in_enumerate.
  - intros [].
  - intros [].
Qed.

(** Every pointer the walk reaches has its Report Record in the trace. *)
Lemma reached_is_reported :
  forall val path pval ptype p,
    reaches val path pval ptype p ->
    In (Report p (typename ptype) (fmt_addr pval)) (trace val path).
Proof.
  assert (member : forall val path k f l,
            visits val k f ->
            In l (member_trace val path k f) ->
            In l (trace val path)).
  { intros val path k f l [Hn [[Hs Hart]|Hu]] Hin.
    - rewrite (trace_struct _ _ Hs). apply in_flat_map. exists (k, f).
      split; [now apply in_enumerate|].
      unfold struct_field_trace. simpl. now rewrite Hart.
    - rewrite (trace_union _ _ Hu). apply in_flat_map. exists (k, f).
      split; [now apply in_enumerate|exact Hin]. }
  induction 1 as [val path Hp
                 | val path n i elem pval ptype p Ha Hn Hi Hg _ IH
                 | val path k f fval Hv Hg Hp
                 | val path k f fval pval ptype p Hv Hg Hp Hagg _ IH].
  - rewrite trace_eq. unfold trace_unfold. apply is_ptr_shape in Hp.
    rewrite Hp. now left.
  - rewrite (trace_array _ _ _ Ha Hn). apply in_flat_map. exists i. split.
    + apply in_seq. lia.
    + unfold elem_trace. now rewrite Hg.
  - apply (member val path k f); [exact Hv|].
    unfold member_trace. rewrite Hg, Hp. now left.
  - apply (member val path k f); [exact Hv|].
    unfold member_trace. now rewrite Hg, Hp, Hagg.
Qed.

(** C8, as the script has it: the Report Records of a walk are exactly
    the records of the pointers the walk reaches inside the walked
    value.  Each record stands at the path of its pointer, under that
    pointer's type name, and shows of the pointer only its integer
    conversion, so that no target of the pointer enters: when the
    conversion yields the (non-negative) address, the printed address is
    [0x] followed by lowercase hexadecimal digits that denote exactly
    that address; when the conversion raises, the record shows the
    value's printed form instead. *)
Theorem reported_address :
  forall (val : value) (path : string),
    (forall p tn addr,
        In (Report p tn addr) (trace val path) ->
        exists pval ptype,
          reaches val path pval ptype p /\
          tn = typename ptype /\
          (forall n,
              vint pval = Some n -> 0 <= n ->
              exists digits,
                addr = ("0x" ++ digits)%string /\
                all_lower_hex digits /\
                hex_decode digits = Some n) /\
          (vint pval = None -> addr = vstr pval)) /\
    (forall pval ptype p,
        reaches val path pval ptype p ->
        In (Report p (typename ptype) (fmt_addr pval)) (trace val path)).
Proof.
  intros val path. split.
  - intros p tn addr Hin.
    destruct (report_is_reached _ _ _ _ _ Hin) as (pval & ptype & Hr & Ht & ->).
    exists pval, ptype. split; [exact Hr|]. split; [exact Ht|].
    unfold fmt_addr. split.
    + intros n Hv Hn. rewrite Hv. now apply hex0x_nonneg.
    + intros Hv. now rewrite Hv.
  - apply reached_is_reported.
Qed.

Lemma reported_address_witness :
  (exists pval ptype,
     reaches Samples.v_struct_hole "s" pval ptype "s.r" /\
     "void *"%string = typename ptype /\
     (forall n,
         vint pval = Some n -> 0 <= n ->
         exists digits,
           "0x3000"%string = ("0x" ++ digits)%string /\
           all_lower_hex digits /\
           hex_decode digits = Some n) /\
     (vint pval = None -> "0x3000"%string = vstr pval)) /\
  In (Report (field_path "s" (Field (Some "p") false Samples.t_voidp))
        (typename (strip Samples.t_voidp))
        (fmt_addr (Samples.v_ptr Samples.t_voidp 4096)))
     (trace Samples.v_struct_hole "s").
Proof.
  destruct (reported_address Samples.v_struct_hole "s") as [R C].
  split.
  - apply R. vm_compute. right. right. left. reflexivity.
  - apply C.
    apply (reaches_pointer_member Samples.v_struct_hole "s" 0
             (Field (Some "p") false Samples.t_voidp)
             (Samples.v_ptr Samples.t_voidp 4096)).
    + split; [reflexivity|]. left. split; reflexivity.
    + reflexivity.
    + reflexivity.
Defined.

(** The address of one member does not pass for that of another: a
    pointer reached at [s.p] in the sample struct is the value of [p]. *)
Example address_belongs_to_its_path :
  forall pval ptype,
    reaches Samples.v_struct_hole "s" pval ptype "s.p" ->
    fmt_addr pval = "0x1000"%string.
Proof.
  intros pval ptype H.
  pose proof (reached_is_reported _ _ _ _ _ H) as Hin.
  remember (fmt_addr pval) as a eqn:Ea. clear Ea.
  remember (typename ptype) as tn eqn:Et. clear Et.
  vm_compute in Hin.
  destruct Hin as [E|[E|[E|[]]]]; congruence.
Qed.

(** C8 as stated fails: the sample pointer whose contents cannot be
    converted is reported and counted, and the address of its Report
    Record is not [0x] followed by the hexadecimal form of any integer. *)
Lemma unreadable_pointer_prints_placeholder :
  is_ptr (strip (vtype Samples.v_optimized_out)) = true /\
  run Samples.v_optimized_out "p" (StructPtrEnumerator []) =
    {| count := 1;
       output := [Report "p" "char *" "<optimized out>"; Total 1] |} /\
  forall n : Z, "<optimized out>"%string <> hex0x n.
Proof.
  repeat split. intros n. unfold hex0x. simpl. discriminate.
Qed.

(* ================================================================== *)
(** ** Running again *)

(** C9: running the walk twice on the same value with the same path
    writes the same lines twice and ends with the same count; the count
    an enumerator holds when [run] starts has no effect on the result. *)
Theorem run_is_repeatable :
  forall (val : value) (path : string) (s : state),
    let s1 := run val path s in
    let s2 := run val path s1 in
    let ls := trace val path ++ [Total (Z.of_nat (reports (trace val path)))] in
    output s1 = output s ++ ls /\
    output s2 = output s1 ++ ls /\
    count s2 = count s1 /\
    (forall c, run val path {| count := c; output := output s |} = run val path s).
Proof.
  intros val path s s1 s2 ls. subst s1 s2 ls.
  rewrite !run_eq. simpl. repeat split.
  intros c. now rewrite !run_eq.
Qed.

Example run_twice_rec :
  let s1 := run Samples.v_rec "r" (StructPtrEnumerator []) in
  let s2 := run Samples.v_rec "r" s1 in
  count s1 = 1 /\ count s2 = 1 /\
  output s2 = [Report "r.name" "char *" "0x1000"; Total 1;
               Report "r.name" "char *" "0x1000"; Total 1].
Proof. repeat split. Qed.

(* ================================================================== *)
(** ** More about the walker *)

(** X1: a value that is neither pointer nor array nor struct nor union (a
    scalar, an enum, a function, a typedef that does not resolve) is
    passed over in silence: the walk changes nothing and [run] writes the
    total 0 alone. *)
Theorem other_types_are_silent :
  forall (val : value) (path : string) (s : state),
    let t := strip (vtype val) in
    is_ptr t = false -> is_array t = false ->
    is_struct t = false -> is_union t = false ->
    _walk_value val path s = s /\
    run val path s = {| count := 0; output := output s ++ [Total 0] |}.
Proof.
  intros val path s t Hp Ha Hs Hu.
  assert (W : forall s0, _walk_value val path s0 = s0).
  { intros s0. rewrite _walk_value_eq, walk_body_as_tests. cbv zeta.
    fold t. now rewrite Hp, Ha, Hs, Hu. }
  split; [apply W|]. unfold run. now rewrite W.
Qed.

Lemma other_types_are_silent_witness :
  _walk_value (Samples.v_int 7) "n" (StructPtrEnumerator []) =
    StructPtrEnumerator [] /\
  run (Samples.v_int 7) "n" (StructPtrEnumerator []) =
    {| count := 0; output := [] ++ [Total 0] |}.
Proof.
  exact (other_types_are_silent (Samples.v_int 7) "n" (StructPtrEnumerator [])
           eq_refl eq_refl eq_refl eq_refl).
Defined.

(** X2: type names are those of the stripped type: a typedef that resolves
    never shows in a name, and a pointer declared through such a typedef
    is reported under the name of the pointer type itself. *)
Theorem typename_sees_through_typedefs :
  forall (t u : type),
    strip_typedefs t = Some u ->
    typename t = typename u /\
    typename (strip t) = typename t /\
    (forall val path,
        vtype val = t -> is_ptr u = true ->
        trace val path = [Report path (typename u) (fmt_addr val)]).
Proof.
  intros t u E.
  assert (S1 : strip t = u) by (unfold strip; now rewrite E).
  assert (S2 : strip u = u).
  { unfold strip. now rewrite (strip_typedefs_fixed _ _ E). }
  assert (T : typename t = typename u).
  { unfold typename. now rewrite S1, S2. }
  split; [exact T|]. split.
  - rewrite S1. now symmetry.
  - intros val path Hv Hp. rewrite trace_eq. unfold trace_unfold.
    rewrite Hv, S1. rewrite <- S2 in Hp at 1. apply is_ptr_shape in Hp.
    rewrite S2 in Hp. now rewrite Hp.
Qed.

Lemma typename_sees_through_typedefs_witness :
  typename MoreSamples.t_handle = typename Samples.t_voidp /\
  typename (strip MoreSamples.t_handle) = typename MoreSamples.t_handle /\
  (forall val path,
      vtype val = MoreSamples.t_handle -> is_ptr Samples.t_voidp = true ->
      trace val path = [Report path (typename Samples.t_voidp) (fmt_addr val)]).
Proof.
  exact (typename_sees_through_typedefs MoreSamples.t_handle Samples.t_voidp
           eq_refl).
Defined.

Example handle_is_reported_as_pointer :
  map render (trace MoreSamples.v_handle "h") =
  ["h : void * = 0x1000" ++ nl]%string.
Proof. reflexivity. Qed.

(** X3: an array whose length comes out as zero or negative (bounds 0 and -1,
    as for a flexible array member) is walked without a line: it is not
    given the unknown-length diagnostic, and none of its elements is
    looked at. *)
Theorem empty_array_is_silent :
  forall (val : value) (path : string) (s : state) (n : Z),
    is_array (strip (vtype val)) = true ->
    array_len (strip (vtype val)) = Some n ->
    n <= 0 ->
    _walk_value val path s = s /\ trace val path = [].
Proof.
  intros val path s n Ha Hn Hle.
  assert (T : trace val path = []).
  { rewrite (trace_array _ _ _ Ha Hn). unfold py_range.
    replace (Z.to_nat n) with 0%nat by lia. reflexivity. }
  split; [|exact T]. rewrite walk_emits, T. destruct s as [c o].
  unfold reports. simpl. now rewrite app_nil_r, Z.add_0_r.
Qed.

Lemma empty_array_is_silent_witness :
  _walk_value MoreSamples.v_fam "tail" (StructPtrEnumerator []) =
    StructPtrEnumerator [] /\
  trace MoreSamples.v_fam "tail" = [].
Proof.
  exact (empty_array_is_silent MoreSamples.v_fam "tail"
           (StructPtrEnumerator []) 0 eq_refl eq_refl (Z.le_refl 0)).
Defined.

(** X5: the length found by the size fallback counts whole elements only:
    that many elements fit in the array's size, and one more would not. *)
Theorem fallback_length_fits :
  forall (t el : type) (es ts n : Z),
    range (strip t) = None ->
    target (strip t) = Some el ->
    sizeof el = Some es ->
    sizeof (strip t) = Some ts ->
    array_len t = Some n ->
    0 < es /\ 0 < ts /\ 0 <= n /\ n * es <= ts < (n + 1) * es.
Proof.
  intros t el es ts n Hr Ht He Hs. unfold array_len.
  rewrite Hr, Ht, He, Hs.
  destruct (0 <? es) eqn:Pe, (0 <? ts) eqn:Pt; simpl; try discriminate.
  intros [= <-]. apply Z.ltb_lt in Pe, Pt.
  pose proof (Z.div_pos ts es) as D.
  pose proof (Z.mul_div_le ts es Pe) as L.
  pose proof (Z.mul_succ_div_gt ts es Pe) as G.
  repeat split; try lia.
Qed.

Lemma fallback_length_fits_witness :
  0 < 8 /\ 0 < 20 /\ 0 <= 2 /\ 2 * 8 <= 20 < (2 + 1) * 8.
Proof.
  exact (fallback_length_fits MoreSamples.t_ragged Samples.t_voidp 8 20 2
           eq_refl eq_refl eq_refl eq_refl eq_refl).
Defined.

(* ================================================================== *)
(** ** More about the printed text *)

Lemma to_hex_int_proper (n : Z) :
  Z.to_hex_int n <> Hexadecimal.Pos Hexadecimal.Nil /\
  Z.to_hex_int n <> Hexadecimal.Neg Hexadecimal.Nil.
Proof.
  destruct n as [|p|p]; simpl; split; try discriminate;
    intros [= H]; exact (HexadecimalPos.Unsigned.to_uint_nonnil p H).
Qed.

Lemma format_x_inj (n m : Z) : format_x n = format_x m -> n = m.
Proof.
  unfold format_x. intros E. apply HexadecimalZ.to_int_inj.
  destruct (to_hex_int_proper n) as [A B], (to_hex_int_proper m) as [C D].
  pose proof (HexadecimalString.NilZero.isi _ A B) as In.
  pose proof (HexadecimalString.NilZero.isi _ C D) as Im.
  rewrite E in In. rewrite In in Im. now injection Im.
Qed.

(** X6: the printed address determines the address: two integers are
    written with the same text only if they are equal, so pointers that
    differ are never reported alike. *)
Theorem printed_address_is_injective :
  forall (v w : value) (n m : Z),
    vint v = Some n -> vint w = Some m ->
    fmt_addr v = fmt_addr w -> n = m.
Proof.
  intros v w n m Hv Hw. unfold fmt_addr, hex0x. rewrite Hv, Hw.
  simpl. intros [= E]. now apply format_x_inj.
Qed.

Lemma printed_address_is_injective_witness : 4096 = 4096.
Proof.
  exact (printed_address_is_injective
           (Samples.v_ptr Samples.t_charp 4096)
           (Samples.v_ptr Samples.t_voidp 4096)
           4096 4096 eq_refl eq_refl eq_refl).
Defined.

Lemma to_int_proper (n : Z) :
  Z.to_int n <> Decimal.Pos Decimal.Nil /\
  Z.to_int n <> Decimal.Neg Decimal.Nil.
Proof.
  destruct n as [|p|p]; simpl; split; try discriminate;
    intros [= H]; exact (DecimalPos.Unsigned.to_uint_nonnil p H).
Qed.

Lemma str_int_inj (n m : Z) : str_int n = str_int m -> n = m.
Proof.
  unfold str_int. intros E. apply DecimalZ.to_int_inj.
  destruct (to_int_proper n) as [A B], (to_int_proper m) as [C D].
  pose proof (DecimalString.NilZero.isi _ A B) as In.
  pose proof (DecimalString.NilZero.isi _ C D) as Im.
  rewrite E in In. rewrite In in Im. now injection Im.
Qed.

Lemma append_cancel_l (p a b : string) :
  (p ++ a)%string = (p ++ b)%string -> a = b.
Proof.
  induction p as [|c p IH]; simpl; [trivial|]. intros [= E]. now apply IH.
Qed.

Lemma append_length (a b : string) :
  String.length (a ++ b) = (String.length a + String.length b)%nat.
Proof. induction a as [|c a IH]; simpl; [reflexivity|now rewrite IH]. Qed.

Lemma append_cancel_r (a b r : string) :
  (a ++ r)%string = (b ++ r)%string -> a = b.
Proof.
  revert b. induction a as [|c a IH]; intros [|d b] E; simpl in E.
  - reflexivity.
  - apply (f_equal String.length) in E. simpl in E.
    rewrite append_length in E. lia.
  - apply (f_equal String.length) in E. simpl in E.
    rewrite append_length in E. lia.
  - injection E as -> E. f_equal. now apply IH.
Qed.

(** X7: the elements of an array get pairwise distinct paths: the index
    can be read back from the path. *)
Theorem element_paths_are_distinct :
  forall (path : string) (i j : nat),
    elem_path path i = elem_path path j -> i = j.
Proof.
  intros path i j E. unfold elem_path in E.
  apply append_cancel_l in E. simpl in E. injection E as E.
  apply append_cancel_r in E. unfold str_nat in E.
  apply str_int_inj in E. lia.
Qed.

Lemma element_paths_are_distinct_witness : 3%nat = 3%nat.
Proof.
  exact (element_paths_are_distinct "slot" 3 3 eq_refl).
Defined.

(** *** Every line is labelled with the root path *)

Lemma prefix_append (p r : string) : String.prefix p (p ++ r) = true.
Proof.
  induction p as [|c p IH]; simpl; [now destruct r|].
  destruct (ascii_dec c c); [exact IH | congruence].
Qed.

Lemma prefix_trans (a b c : string) :
  String.prefix a b = true -> String.prefix b c = true ->
  String.prefix a c = true.
Proof.
  revert b c. induction a as [|x a IH]; intros b c; [now destruct c|].
  destruct b as [|y b]; [discriminate|]. destruct c as [|z c]; [now destruct b|].
  simpl. destruct (ascii_dec x y) as [->|]; [|discriminate].
  destruct (ascii_dec y z) as [->|]; [|discriminate].
  destruct (ascii_dec z z); [|congruence]. apply IH.
Qed.

Lemma labelled_deeper path sub l :
  labelled (path ++ sub) l -> labelled path l.
Proof. unfold labelled. apply prefix_trans, prefix_append. Qed.

Lemma Forall_flat_map_in {A B : Type} (P : B -> Prop) (f : A -> list B) xs :
  (forall x, In x xs -> Forall P (f x)) -> Forall P (flat_map f xs).
Proof.
  induction xs as [|x xs IH]; intros H; simpl; [constructor|].
  apply Forall_app. split; [apply H; now left|].
  apply IH. intros y Hy. apply H. now right.
Qed.

(** A property of lines that holds of the lines written at a path, and
    that is inherited from an element's or a member's path by the path
    above, holds of every line of a walk. *)
Section TraceInvariant.

Variable P : string -> line -> Prop.

Hypothesis P_report : forall path tn a, P path (Report path tn a).
Hypothesis P_unknown : forall path e, P path (UnknownLength path e).
Hypothesis P_elem : forall path i, P path (InaccessibleElement path i).
Hypothesis P_field : forall path, P path (Inaccessible path).
Hypothesis P_up_elem : forall path i l, P (elem_path path i) l -> P path l.
Hypothesis P_up_field : forall path f l, P (field_path path f) l -> P path l.

Lemma trace_invariant : forall val path, Forall (P path) (trace val path).
Proof.
  induction val as [t i s sub IH] using value_nested_ind. intros path.
  rewrite trace_eq. unfold trace_unfold. set (val := Value t i s sub).
  assert (below : forall k c q,
             getitem val k = Some c -> Forall (P q) (trace c q)).
  { intros k c q Hk. exact (subscript_on_sub _ _ _ _ IH Hk q). }
  assert (member : forall k f, Forall (P path) (member_trace val path k f)).
  { intros k f. unfold member_trace.
    destruct (getitem val k) as [fval|] eqn:Hk.
    - destruct (is_ptr (strip (ftype f))).
      + constructor; [|constructor]. apply (P_up_field _ f), P_report.
      + destruct (is_array _ || is_struct _ || is_union _); [|constructor].
        eapply Forall_impl; [|exact (below k fval _ Hk)].
        intros l. apply P_up_field.
    - constructor; [|constructor]. apply (P_up_field _ f), P_field. }
  destruct (shape (strip (vtype val))) as [ | r el | fs | fs | u | k ].
  - constructor; [apply P_report|constructor].
  - destruct (array_len (strip (vtype val))) as [n|].
    + apply Forall_flat_map_in. intros j _. unfold elem_trace.
      destruct (getitem val j) as [c|] eqn:Hj.
      * eapply Forall_impl; [|exact (below j c _ Hj)].
        intros l. apply P_up_elem.
      * constructor; [apply P_elem|constructor].
    + constructor; [apply P_unknown|constructor].
  - apply Forall_flat_map_in. intros [k f] _. unfold struct_field_trace.
    simpl. destruct (artificial f); [constructor|apply member].
  - apply Forall_flat_map_in. intros [k f] _. apply member.
  - constructor.
  - constructor.
Qed.

End TraceInvariant.

(** X8: every line a walk writes begins with the path the walk was started
    with: all Report Records and diagnostics of one command are labelled
    with the root expression. *)
Theorem lines_start_with_path :
  forall (val : value) (path : string),
    Forall (fun l => String.prefix path (render l) = true) (trace val path).
Proof.
  intros val path. apply (trace_invariant labelled); clear; unfold labelled.
  - intros path tn a. apply prefix_append.
  - intros path e. apply prefix_append.
  - intros path i. apply prefix_append.
  - intros path. apply prefix_append.
  - intros path i l. apply labelled_deeper.
  - intros path f l. apply labelled_deeper.
Qed.

(** X9: the walk itself never writes a total: what [run] adds to the
    output is the lines of the walk, none of them a total, followed by
    one total, which shows the count [run] ends with. *)
Theorem total_is_written_once :
  forall (val : value) (path : string) (s : state),
    filter is_total (trace val path) = [] /\
    output (_walk_value val path s) = output s ++ trace val path /\
    output (run val path s) =
      output s ++ trace val path ++ [Total (count (run val path s))].
Proof.
  intros val path s.
  assert (N : filter is_total (trace val path) = []).
  { assert (F : Forall (fun l => is_total l = false) (trace val path)).
    { apply (trace_invariant (fun _ l => is_total l = false)); clear;
        intros; trivial. }
    induction F as [|l ls Hl _ IH]; simpl; [reflexivity|now rewrite Hl]. }
  split; [exact N|]. split.
  - now rewrite walk_emits.
  - now rewrite run_eq.
Qed.

(* ================================================================== *)
(** ** Members and their values *)

(** X10: when the value fetched for a member has the member's declared type,
    the member loop does with it what the walk of that value does: the
    direct report of a pointer member is the walk of a pointer value, and
    a member that is ignored is one whose walk writes nothing. *)
Theorem member_is_walked_as_its_value :
  forall (val fval : value) (path : string) (k : nat) (f : field) (s : state),
    getitem val k = Some fval ->
    strip (vtype fval) = strip (ftype f) ->
    member_step (with_walkers _walk_value val) path k f s =
    _walk_value fval (field_path path f) s.
Proof.
  intros val fval path k f s Hk Ht.
  unfold member_step, with_walkers. rewrite subscript_map.
  unfold getitem in Hk. rewrite Hk. simpl.
  rewrite (_walk_value_eq fval), walk_body_as_tests. cbv zeta. rewrite Ht.
  destruct (is_ptr (strip (ftype f))); [reflexivity|].
  destruct (is_array (strip (ftype f))); [reflexivity|].
  destruct (is_struct (strip (ftype f))); [reflexivity|].
  destruct (is_union (strip (ftype f))); reflexivity.
Qed.

Lemma member_is_walked_as_its_value_witness :
  member_step (with_walkers _walk_value Samples.v_rec) "r" 1
    (Field (Some "name") false Samples.t_charp) (StructPtrEnumerator []) =
  _walk_value (Samples.v_ptr Samples.t_charp 4096)
    (field_path "r" (Field (Some "name") false Samples.t_charp))
    (StructPtrEnumerator []).
Proof.
  exact (member_is_walked_as_its_value Samples.v_rec
           (Samples.v_ptr Samples.t_charp 4096) "r" 1
           (Field (Some "name") false Samples.t_charp)
           (StructPtrEnumerator []) eq_refl eq_refl).
Defined.

Lemma flat_map_singletons {A B : Type} (f : A -> list B) (g : A -> B) xs :
  (forall x, In x xs -> f x = [g x]) -> flat_map f xs = map g xs.
Proof.
  induction xs as [|x xs IH]; intros H; simpl; [reflexivity|].
  rewrite (H x) by now left. simpl. f_equal.
  apply IH. intros y Hy. apply H. now right.
Qed.

Lemma reports_all {A : Type} (g : A -> line) xs :
  (forall x, is_report (g x) = true) -> reports (map g xs) = List.length xs.
Proof.
  intros H. unfold reports. induction xs as [|x xs IH]; simpl; [reflexivity|].
  rewrite H. simpl. now rewrite IH.
Qed.

(** X11: an array of [n] pointers, all of them readable, gives exactly [n]
    Report Records, one per element, at the paths [path[0]] to
    [path[n-1]] in this order, and [run] counts [n]. *)
Theorem array_of_pointers_reports_each :
  forall (val : value) (path : string) (s : state) (n : Z)
         (elems : nat -> value),
    is_array (strip (vtype val)) = true ->
    array_len (strip (vtype val)) = Some n ->
    (forall i, (i < Z.to_nat n)%nat ->
       getitem val i = Some (elems i) /\
       is_ptr (strip (vtype (elems i))) = true) ->
    trace val path =
      map (fun i => Report (elem_path path i)
                      (typename (strip (vtype (elems i))))
                      (fmt_addr (elems i)))
          (seq 0 (Z.to_nat n)) /\
    count (run val path s) = Z.of_nat (Z.to_nat n).
Proof.
  intros val path s n elems Ha Hn Hall.
  assert (T : trace val path =
                map (fun i => Report (elem_path path i)
                                (typename (strip (vtype (elems i))))
                                (fmt_addr (elems i)))
                    (seq 0 (Z.to_nat n))).
  { rewrite (trace_array _ _ _ Ha Hn). unfold py_range.
    apply flat_map_singletons. intros i Hi. apply in_seq in Hi.
    destruct (Hall i) as [Hg Hp]; [lia|].
    unfold elem_trace. rewrite Hg, trace_eq. unfold trace_unfold.
    apply is_ptr_shape in Hp. now rewrite Hp. }
  split; [exact T|]. rewrite run_eq. simpl. rewrite T.
  rewrite reports_all by reflexivity. now rewrite length_seq.
Qed.

Lemma array_of_pointers_reports_each_witness :
  trace MoreSamples.v_pair "pair" =
    map (fun i => Report (elem_path "pair" i)
                    (typename (strip (vtype (MoreSamples.pair_elem i))))
                    (fmt_addr (MoreSamples.pair_elem i)))
        (seq 0 (Z.to_nat 2)) /\
  count (run MoreSamples.v_pair "pair" (StructPtrEnumerator [])) =
    Z.of_nat (Z.to_nat 2).
Proof.
  apply (array_of_pointers_reports_each MoreSamples.v_pair "pair"
           (StructPtrEnumerator []) 2 MoreSamples.pair_elem);
    [reflexivity | reflexivity |].
  intros [|[|i]] Hi; [split; reflexivity | split; reflexivity |].
  simpl in Hi. lia.
Defined.

(* ================================================================== *)
(** ** The count and the static type *)

Lemma pointer_leaves_resolved :
  forall t u, strip_typedefs t = Some u -> pointer_leaves t = pointer_leaves u.
Proof.
  fix IH 1.
  intros [g s z sh] u.
  destruct sh as [ | r el | fs | fs | [t'|] | k ];
    try (intros [= <-]; reflexivity).
  simpl strip_typedefs. intros E.
  change (pointer_leaves (Type_ g s z (Typedef (Some t'))))
    with (pointer_leaves t').
  now apply IH.
Qed.

Lemma pointer_leaves_unresolved :
  forall t, strip_typedefs t = None -> pointer_leaves t = 0%nat.
Proof.
  fix IH 1.
  intros [g s z sh].
  destruct sh as [ | r el | fs | fs | [t'|] | k ]; try discriminate.
  - simpl strip_typedefs. intros E.
    change (pointer_leaves (Type_ g s z (Typedef (Some t'))))
      with (pointer_leaves t').
    now apply IH.
  - reflexivity.
Qed.

Lemma strip_typedefs_shape :
  forall t u, strip_typedefs t = Some u ->
  forall x, shape u <> Typedef x.
Proof.
  fix IH 1.
  intros [g s z sh] u.
  destruct sh as [ | r el | fs | fs | [t'|] | k ];
    try (intros [= <-] x; discriminate).
  simpl strip_typedefs. apply IH.
Qed.

Lemma pointer_leaves_strip t : pointer_leaves (strip t) = pointer_leaves t.
Proof.
  unfold strip. destruct (strip_typedefs t) as [u|] eqn:E; [|reflexivity].
  symmetry. now apply pointer_leaves_resolved.
Qed.

(** The leaves of a type, read off its stripped form. *)
Lemma pointer_leaves_by_shape t :
  pointer_leaves t =
  match shape (strip t) with
  | Ptr => 1
  | Array _ el =>
      match array_len (strip t) with
      | Some n => Z.to_nat n * pointer_leaves el
      | None => 0
      end
  | Struct fs =>
      list_sum
        (map (fun f => if artificial f then 0 else pointer_leaves (ftype f)) fs)
  | Union fs => list_sum (map (fun f => pointer_leaves (ftype f)) fs)
  | Typedef _ | Scalar _ => 0
  end%nat.
Proof.
  unfold strip. destruct (strip_typedefs t) as [u|] eqn:E.
  - rewrite (pointer_leaves_resolved _ _ E).
    pose proof (strip_typedefs_shape _ _ E) as N.
    destruct u as [g s z sh]. simpl in N.
    destruct sh as [ | r el | fs | fs | x | k ]; try reflexivity.
    now destruct (N x).
  - rewrite (pointer_leaves_unresolved _ E).
    destruct t as [g s z sh].
    destruct sh as [ | r el | fs | fs | x | k ]; try discriminate.
    reflexivity.
Qed.

Lemma member_trace_typed val fval path k f :
  getitem val k = Some fval ->
  strip (vtype fval) = strip (ftype f) ->
  member_trace val path k f = trace fval (field_path path f).
Proof.
  intros Hk Ht. unfold member_trace. rewrite Hk.
  destruct (is_ptr (strip (ftype f))) eqn:Hp.
  - apply is_ptr_shape in Hp. rewrite trace_eq. unfold trace_unfold.
    now rewrite Ht, Hp.
  - destruct (is_array _ || is_struct _ || is_union _) eqn:Hagg;
      [reflexivity|].
    rewrite trace_eq. unfold trace_unfold. rewrite Ht.
    unfold is_ptr, is_array, is_struct, is_union, code in Hp, Hagg.
    rewrite !strip_idem in Hp, Hagg.
    destruct (shape (strip (ftype f))) as [ | r el | fs | fs | x | [] ];
      simpl in Hp, Hagg; try discriminate; reflexivity.
Qed.

Lemma reports_flat_map_const {A : Type} (g : A -> list line) (x : nat) xs :
  (forall a, In a xs -> reports (g a) = x) ->
  reports (flat_map g xs) = (List.length xs * x)%nat.
Proof.
  induction xs as [|a xs IH]; intros H; simpl; [reflexivity|].
  rewrite reports_app, (H a) by now left. f_equal.
  apply IH. intros b Hb. apply H. now right.
Qed.

Lemma reports_flat_map_fields (g : nat * field -> list line) (h : field -> nat) :
  forall fs k0,
    (forall k f, nth_error fs k = Some f -> reports (g ((k0 + k)%nat, f)) = h f) ->
    reports (flat_map g (enumerate_from k0 fs)) = list_sum (map h fs).
Proof.
  unfold enumerate_from.
  induction fs as [|f fs IH]; intros k0 H; simpl; [reflexivity|].
  rewrite reports_app. f_equal.
  - specialize (H 0%nat f eq_refl). now rewrite Nat.add_0_r in H.
  - apply IH. intros k f' Hk.
    replace (S k0 + k)%nat with (k0 + S k)%nat by lia.
    now apply (H (S k)).
Qed.

Lemma reports_of_readable :
  forall val, readable val ->
  forall path, reports (trace val path) = pointer_leaves (vtype val).
Proof.
  induction val as [t i s sub IH] using value_nested_ind.
  set (val := Value t i s sub).
  assert (below : forall k c q,
             getitem val k = Some c -> readable c ->
             reports (trace c q) = pointer_leaves (vtype c)).
  { intros k c q Hk Hr. exact (subscript_on_sub _ _ _ _ IH Hk Hr q). }
  intros Hr path. rewrite (pointer_leaves_by_shape (vtype val)).
  inversion Hr as [v n el Ha Hn Ht Hall | v Hs Hall | v Hu Hall | v Ha Hs Hu];
    subst v.
  - rewrite (trace_array _ _ _ Ha Hn). apply is_array_shape in Ha.
    destruct Ha as (r & el' & Hsh). rewrite Hsh, Hn.
    unfold target in Ht. rewrite Hsh in Ht. injection Ht as ->.
    unfold py_range.
    rewrite (reports_flat_map_const _ (pointer_leaves el)), length_seq;
      [reflexivity|].
    intros j Hj. apply in_seq in Hj.
    destruct (Hall j) as (c & Hg & Hty & Hc); [lia|].
    unfold elem_trace. rewrite Hg, (below j c _ Hg Hc).
    now rewrite <- (pointer_leaves_strip (vtype c)), Hty, pointer_leaves_strip.
  - rewrite (trace_struct _ _ Hs). apply is_struct_shape in Hs.
    destruct Hs as (fs & Hsh). unfold fields in *. rewrite Hsh in *.
    apply reports_flat_map_fields. intros k f Hk. simpl.
    unfold struct_field_trace. simpl.
    destruct (artificial f) eqn:Hart; [reflexivity|].
    destruct (Hall k f Hk Hart) as (c & Hg & Hty & Hc).
    rewrite (member_trace_typed _ _ _ _ _ Hg Hty), (below k c _ Hg Hc).
    now rewrite <- (pointer_leaves_strip (vtype c)), Hty, pointer_leaves_strip.
  - rewrite (trace_union _ _ Hu). apply is_union_shape in Hu.
    destruct Hu as (fs & Hsh). unfold fields in *. rewrite Hsh in *.
    apply reports_flat_map_fields. intros k f Hk. simpl.
    unfold union_member_trace. simpl.
    destruct (Hall k f Hk) as (c & Hg & Hty & Hc).
    rewrite (member_trace_typed _ _ _ _ _ Hg Hty), (below k c _ Hg Hc).
    now rewrite <- (pointer_leaves_strip (vtype c)), Hty, pointer_leaves_strip.
  - rewrite trace_eq. unfold trace_unfold.
    unfold is_array, is_struct, is_union, code in Ha, Hs, Hu.
    rewrite !strip_idem in Ha, Hs, Hu.
    destruct (shape (strip (vtype val))) as [ | r el | fs | fs | x | [] ];
      simpl in Ha, Hs, Hu; try discriminate; reflexivity.
Qed.

(** X12: for a value that is readable throughout and typed as its places
    declare, the total depends on the static type alone: [run] counts as
    many Report Records as the type has pointer leaves. *)
Theorem total_is_number_of_pointer_leaves :
  forall (val : value) (path : string) (s : state),
    readable val ->
    reports (trace val path) = pointer_leaves (vtype val) /\
    count (run val path s) = Z.of_nat (pointer_leaves (vtype val)).
Proof.
  intros val path s Hr.
  pose proof (reports_of_readable val Hr path) as E.
  split; [exact E|]. rewrite run_eq. simpl. now rewrite E.
Qed.

Lemma total_is_number_of_pointer_leaves_witness :
  reports (trace Samples.v_rec "r") = pointer_leaves (vtype Samples.v_rec) /\
  count (run Samples.v_rec "r" (StructPtrEnumerator [])) =
    Z.of_nat (pointer_leaves (vtype Samples.v_rec)).
Proof.
  apply (total_is_number_of_pointer_leaves Samples.v_rec "r"
           (StructPtrEnumerator [])).
  apply readable_struct; [reflexivity|].
  intros k f Hk _;
    destruct k as [|[|[|k]]];
    (destruct k || idtac); cbv in Hk; try discriminate; injection Hk as <-.
  - exists (Samples.v_int 7). repeat split.
    now apply readable_leaf.
  - exists (Samples.v_ptr Samples.t_charp 4096). repeat split.
    now apply readable_leaf.
  - eexists. split; [reflexivity|]. split; [reflexivity|].
    apply (readable_array _ 2 Samples.t_int); try reflexivity.
    intros [|[|i]] Hi.
    + exists (Samples.v_int 1). repeat split. now apply readable_leaf.
    + exists (Samples.v_int 2). repeat split. now apply readable_leaf.
    + simpl in Hi. lia.
Defined.

Example leaves_of_rec :
  pointer_leaves Samples.t_rec = 1%nat /\
  pointer_leaves (Samples.t_abc true true) = 4%nat /\
  pointer_leaves MoreSamples.t_handle = 1%nat /\
  pointer_leaves MoreSamples.t_fam = 0%nat.
Proof. repeat split. Qed.

(* ================================================================== *)
(** ** The batch driver: which inputs are run, and how it ends *)

Section BatchFacts.

Variable py_int : string -> option Z.
Variable isdir : string -> bool.
Variable sorted_glob : string -> list Valgrind.Path.
Variable is_file : Valgrind.Path -> bool.
Variable subprocess_run : list string -> Valgrind.Path -> Valgrind.run_outcome.
Variable decode : string -> string.

Local Abbreviation test_inputs := (Valgrind.test_inputs subprocess_run decode).
Local Abbreviation stops := (Valgrind.stops subprocess_run).
Local Abbreviation inputs_of := (Valgrind.inputs_of sorted_glob is_file).
Local Abbreviation start_and_program := (Valgrind.start_and_program py_int).
Local Abbreviation accepted := (Valgrind.accepted isdir sorted_glob is_file).
Local Abbreviation main :=
  (Valgrind.main py_int isdir sorted_glob is_file subprocess_run decode).

(** The loop either passes every input, none of which stops the batch,
    or exits with code 1 right after the first input that does. *)
Lemma test_inputs_spec cmd total :
  forall files idx s,
    let r := test_inputs cmd total files idx s in
    (fst r = None /\
     (forall f, In f files -> stops cmd f = false) /\
     Valgrind.tried (snd r) = Valgrind.tried s ++ map (pair cmd) files) \/
    (fst r = Some 1 /\
     exists pre f post,
       files = pre ++ f :: post /\
       (forall g, In g pre -> stops cmd g = false) /\
       stops cmd f = true /\
       Valgrind.tried (snd r) =
         Valgrind.tried s ++ map (pair cmd) (pre ++ [f])).
Proof.
  induction files as [|f files IH]; intros idx s; cbv zeta.
  - left. simpl. repeat split; [intros f []|now rewrite app_nil_r].
  - assert (go : forall s',
      Valgrind.tried s' = Valgrind.tried s ++ [(cmd, f)] ->
      stops cmd f = false ->
      let r := test_inputs cmd total files (S idx) s' in
      (fst r = None /\
       (forall g, In g (f :: files) -> stops cmd g = false) /\
       Valgrind.tried (snd r) =
         Valgrind.tried s ++ map (pair cmd) (f :: files)) \/
      (fst r = Some 1 /\
       exists pre g post,
         f :: files = pre ++ g :: post /\
         (forall h, In h pre -> stops cmd h = false) /\
         stops cmd g = true /\
         Valgrind.tried (snd r) =
           Valgrind.tried s ++ map (pair cmd) (pre ++ [g]))).
    { intros s' Hs' Hf. cbv zeta.
      destruct (IH (S idx) s') as [(E & Hall & Ht)|(E & pre & g & post & Hsplit & Hpre & Hg & Ht)].
      - left. repeat split; [exact E| |].
        + intros g [<-|Hg]; [exact Hf|now apply Hall].
        + rewrite Ht, Hs'. simpl. now rewrite <- app_assoc.
      - right. split; [exact E|]. exists (f :: pre), g, post. repeat split.
        + simpl. now rewrite Hsplit.
        + intros h [<-|Hh]; [exact Hf|now apply Hpre].
        + exact Hg.
        + rewrite Ht, Hs'. simpl. now rewrite <- app_assoc. }
    assert (halt : forall s',
      Valgrind.tried s' = Valgrind.tried s ++ [(cmd, f)] ->
      stops cmd f = true ->
      exists pre g post,
        f :: files = pre ++ g :: post /\
        (forall h, In h pre -> stops cmd h = false) /\
        stops cmd g = true /\
        Valgrind.tried s' = Valgrind.tried s ++ map (pair cmd) (pre ++ [g])).
    { intros s' Hs' Hf. exists [], f, files. repeat split; trivial.
      intros h []. }
    simpl. unfold Valgrind.stops in go, halt.
    destruct (subprocess_run cmd f) as [rc out err| |e].
    + destruct (rc =? 42) eqn:Hrc.
      * right. split; [reflexivity|]. apply halt; [|reflexivity].
        simpl. now destruct (Valgrind.nonempty err), (Valgrind.nonempty out).
      * apply go; [|reflexivity].
        now destruct (Valgrind.nonempty err), (negb (rc =? 0)).
    + apply go; reflexivity.
    + right. split; [reflexivity|]. apply halt; reflexivity.
Qed.

Lemma main_accepted a0 input_folder a2 rest :
  let start_index := fst (start_and_program a2 rest) in
  let program_args := snd (start_and_program a2 rest) in
  accepted input_folder start_index ->
  exists s0,
    Valgrind.tried s0 = [] /\
    forall r,
      r = test_inputs (Valgrind.valgrind_cmd ++ program_args)
            (List.length (inputs_of input_folder))
            (skipn (Z.to_nat start_index) (inputs_of input_folder))
            (Z.to_nat start_index) s0 ->
      fst (main (a0 :: input_folder :: a2 :: rest)) =
        match fst r with Some code => code | None => 0 end /\
      Valgrind.tried (snd (main (a0 :: input_folder :: a2 :: rest))) =
        Valgrind.tried (snd r).
Proof.
  cbv zeta. unfold Valgrind.accepted, Valgrind.main, Valgrind.inputs_of.
  destruct (Valgrind.start_and_program py_int a2 rest) as [start args].
  simpl fst. simpl snd. intros (Hd & H0 & Hn). rewrite Hd. simpl negb.
  cbv iota.
  destruct (filter is_file (sorted_glob input_folder)) as [|f fs] eqn:Ef;
    [simpl in Hn; lia|].
  destruct (Z.ltb_spec start 0) as [|_]; [lia|].
  destruct (Z.leb_spec (Z.of_nat (List.length (f :: fs))) start) as [|_];
    [lia|].
  match goal with
  | |- context [Valgrind.test_inputs _ _ _ _ _ _ ?s] => exists s
  end.
  split; [now destruct (0 <? start)|intros r ->].
  destruct (Valgrind.test_inputs _ _ _ _ _ _ _) as [[code|] s'];
    split; reflexivity.
Qed.

Lemma main_rejected a0 input_folder a2 rest :
  ~ accepted input_folder (fst (start_and_program a2 rest)) ->
  fst (main (a0 :: input_folder :: a2 :: rest)) = 1 /\
  Valgrind.tried (snd (main (a0 :: input_folder :: a2 :: rest))) = [] /\
  List.length (Valgrind.printed (snd (main (a0 :: input_folder :: a2 :: rest))))
    = 1%nat.
Proof.
  unfold Valgrind.accepted, Valgrind.main, Valgrind.inputs_of.
  destruct (Valgrind.start_and_program py_int a2 rest) as [start args].
  simpl fst. intros N.
  destruct (isdir input_folder); simpl negb; cbv iota;
    [|repeat split].
  destruct (filter is_file (sorted_glob input_folder)) as [|f fs] eqn:Ef;
    [repeat split|].
  destruct (Z.ltb_spec start 0) as [|H0]; [repeat split|].
  destruct (Z.leb_spec (Z.of_nat (List.length (f :: fs))) start) as [|Hn];
    [repeat split|].
  exfalso. apply N. repeat split; lia.
Qed.

Lemma accepted_or_not input_folder start_index :
  accepted input_folder start_index \/ ~ accepted input_folder start_index.
Proof.
  unfold Valgrind.accepted.
  destruct (isdir input_folder); [|right; intros [H _]; discriminate].
  destruct (Z_le_dec 0 start_index); [|right; intros [_ H]; lia].
  destruct (Z_lt_dec start_index
              (Z.of_nat (List.length (inputs_of input_folder))));
    [left; repeat split; lia|right; intros [_ H]; lia].
Qed.

(** X13: arguments that fail a check end the batch with exit code 1 before
    anything is run: fewer than three arguments print the usage, and a
    missing folder, a folder without files or a start index outside the
    list of inputs print one error line. *)
Theorem rejected_arguments_run_nothing :
  (forall argv,
      (List.length argv < 3)%nat ->
      main argv =
        (1, {| Valgrind.printed := Valgrind.usage; Valgrind.tried := [] |})) /\
  (forall a0 input_folder a2 rest,
      ~ accepted input_folder (fst (start_and_program a2 rest)) ->
      let r := main (a0 :: input_folder :: a2 :: rest) in
      fst r = 1 /\ Valgrind.tried (snd r) = [] /\
      List.length (Valgrind.printed (snd r)) = 1%nat).
Proof.
  split.
  - intros [|a0 [|a1 [|a2 rest]]] H; try reflexivity. simpl in H. lia.
  - intros a0 input_folder a2 rest N. now apply main_rejected.
Qed.

(** X14: whatever the arguments, the exit code is 0 or 1, and the inputs the
    command is started on are consecutive files of the sorted listing,
    beginning at the start index, each once and in order, all with the
    same command: valgrind's fixed arguments followed by the program's.
    No input before the start index is run. *)
Theorem tried_inputs_form_a_segment :
  forall a0 input_folder a2 rest,
    let start_index := fst (start_and_program a2 rest) in
    let program_args := snd (start_and_program a2 rest) in
    let r := main (a0 :: input_folder :: a2 :: rest) in
    (fst r = 0 \/ fst r = 1) /\
    exists m,
      Valgrind.tried (snd r) =
        map (pair (Valgrind.valgrind_cmd ++ program_args))
            (firstn m (skipn (Z.to_nat start_index) (inputs_of input_folder))).
Proof.
  intros a0 input_folder a2 rest start_index program_args r.
  subst start_index program_args r.
  destruct (accepted_or_not input_folder (fst (start_and_program a2 rest)))
    as [A|N].
  - destruct (main_accepted a0 input_folder a2 rest A) as (s0 & Hs0 & Hm).
    destruct (Hm _ eq_refl) as [Hc Ht]. rewrite Hc, Ht.
    destruct (test_inputs_spec
                (Valgrind.valgrind_cmd ++ snd (start_and_program a2 rest))
                (List.length (inputs_of input_folder))
                (skipn (Z.to_nat (fst (start_and_program a2 rest)))
                   (inputs_of input_folder))
                (Z.to_nat (fst (start_and_program a2 rest))) s0)
      as [(E & _ & T)|(E & pre & f & post & Hsplit & _ & _ & T)];
      cbv zeta in E, T; rewrite E, T, Hs0; simpl.
    + split; [now left|].
      exists (List.length (skipn (Z.to_nat (fst (start_and_program a2 rest)))
                             (inputs_of input_folder))).
      now rewrite firstn_all.
    + split; [now right|]. exists (List.length (pre ++ [f])).
      rewrite Hsplit.
      replace (pre ++ f :: post) with ((pre ++ [f]) ++ post)
        by now rewrite <- app_assoc.
      now rewrite firstn_app, firstn_all, Nat.sub_diag, firstn_O, app_nil_r.
  - destruct (main_rejected a0 input_folder a2 rest N) as (Hc & Ht & _).
    rewrite Hc, Ht. split; [now right|]. now exists 0%nat.
Qed.

Lemma first_stop_unique {A : Type} (stop : A -> bool) :
  forall p1 x1 q1 p2 x2 q2,
    p1 ++ x1 :: q1 = p2 ++ x2 :: q2 ->
    (forall g, In g p1 -> stop g = false) -> stop x1 = true ->
    (forall g, In g p2 -> stop g = false) -> stop x2 = true ->
    p1 = p2 /\ x1 = x2.
Proof.
  induction p1 as [|a p1 IH]; intros x1 q1 [|b p2] x2 q2 E H1 S1 H2 S2;
    simpl in E; injection E as Ex E.
  - now split.
  - subst b. rewrite (H2 x1) in S1 by now left. discriminate.
  - subst a. rewrite (H1 x2) in S2 by now left. discriminate.
  - subst b. destruct (IH x1 q1 p2 x2 q2 E) as [-> ->]; trivial.
    + intros g Hg. apply H1. now right.
    + intros g Hg. apply H2. now right.
    + now split.
Qed.

(** On an output that takes every text: with accepted arguments, the
    batch ends with exit code 1 at the first input, from the start index
    on, whose run ends with valgrind's exit code 42 or with an exception
    other than the timeout, and that input is the last one run. *)
Lemma main_stops_at_first_error :
  forall a0 input_folder a2 rest pre f post,
    let start_index := fst (start_and_program a2 rest) in
    let cmd := Valgrind.valgrind_cmd ++ snd (start_and_program a2 rest) in
    accepted input_folder start_index ->
    skipn (Z.to_nat start_index) (inputs_of input_folder) = pre ++ f :: post ->
    (forall g, In g pre -> stops cmd g = false) ->
    stops cmd f = true ->
    let r := main (a0 :: input_folder :: a2 :: rest) in
    fst r = 1 /\ Valgrind.tried (snd r) = map (pair cmd) (pre ++ [f]).
Proof.
  intros a0 input_folder a2 rest pre f post start_index cmd A Hsplit Hpre Hf r.
  subst start_index cmd r.
  destruct (main_accepted a0 input_folder a2 rest A) as (s0 & Hs0 & Hm).
  destruct (Hm _ eq_refl) as [Hc Ht]. rewrite Hc, Ht.
  destruct (test_inputs_spec
              (Valgrind.valgrind_cmd ++ snd (start_and_program a2 rest))
              (List.length (inputs_of input_folder))
              (skipn (Z.to_nat (fst (start_and_program a2 rest)))
                 (inputs_of input_folder))
              (Z.to_nat (fst (start_and_program a2 rest))) s0)
    as [(E & Hall & T)|(E & pre' & f' & post' & Hsplit' & Hpre' & Hf' & T)];
    cbv zeta in E, T.
  - rewrite (Hall f) in Hf; [discriminate|].
    rewrite Hsplit. apply in_or_app. right. now left.
  - rewrite E, T, Hs0. rewrite Hsplit in Hsplit'.
    destruct (first_stop_unique _ _ _ _ _ _ _ Hsplit' Hpre Hf Hpre' Hf')
      as [-> ->].
    now split.
Qed.


End BatchFacts.

Lemma rejected_arguments_run_nothing_witness :
  Valgrind.sample_main ["run_valgrind.py"; "in"]%string =
    (1, {| Valgrind.printed := Valgrind.usage; Valgrind.tried := [] |}) /\
  (let r := Valgrind.sample_main
              ["run_valgrind.py"; "nowhere"; "./httpd"]%string in
   fst r = 1 /\ Valgrind.tried (snd r) = [] /\
   List.length (Valgrind.printed (snd r)) = 1%nat) /\
  (let r := Valgrind.sample_main
              ["run_valgrind.py"; "in"; "7"; "./httpd"]%string in
   fst r = 1 /\ Valgrind.tried (snd r) = [] /\
   List.length (Valgrind.printed (snd r)) = 1%nat).
Proof.
  pose proof (rejected_arguments_run_nothing
                Valgrind.sample_int Valgrind.sample_isdir Valgrind.sample_glob
                Valgrind.sample_is_file Valgrind.sample_run (fun b => b))
    as [U R].
  split; [|split].
  - apply U. simpl. lia.
  - apply (R "run_valgrind.py" "nowhere" "./httpd" [])%string.
    intros [H _]. vm_compute in H. discriminate.
  - apply (R "run_valgrind.py" "in" "7" ["./httpd"])%string.
    intros [_ [_ H]]. vm_compute in H. discriminate.
Defined.

Example batch_on_sample :
  let r := Valgrind.sample_main
             ["run_valgrind.py"; "in"; "1"; "./httpd"]%string in
  fst r = 1 /\
  map (fun t => Valgrind.file_name (snd t)) (Valgrind.tried (snd r))
    = ["b"%string] /\
  nth 0 (Valgrind.printed (snd r)) ""%string = "Found 3 input files"%string /\
  nth 1 (Valgrind.printed (snd r)) ""%string =
    "Starting from input 1 (skipping first 1 inputs)"%string /\
  nth 2 (Valgrind.printed (snd r)) ""%string =
    "Program command: ./httpd"%string /\
  last (Valgrind.printed (snd r)) ""%string =
    "Stopped at input 2/3: in/b"%string.
Proof. Abort.

(** X17: an argument after the folder that reads as an integer is always
    taken as the start index, never as part of the program: every run
    uses valgrind's arguments followed by the arguments after it (by
    nothing, if none follows), on an input at or after that index. *)
Theorem numeric_argument_is_the_start_index :
  forall (py_int : string -> option Z) (isdir : string -> bool)
         (sorted_glob : string -> list Valgrind.Path)
         (is_file : Valgrind.Path -> bool)
         (subprocess_run : list string -> Valgrind.Path -> Valgrind.run_outcome)
         (decode : string -> string)
         (a0 input_folder a2 : string) (rest : list string) (k : Z),
    py_int a2 = Some k ->
    let r := Valgrind.main py_int isdir sorted_glob is_file subprocess_run
               decode (a0 :: input_folder :: a2 :: rest) in
    forall cmd f,
      In (cmd, f) (Valgrind.tried (snd r)) ->
      cmd = Valgrind.valgrind_cmd ++ rest /\
      In f (skipn (Z.to_nat k)
              (Valgrind.inputs_of sorted_glob is_file input_folder)).
Proof.
  intros py_int isdir sorted_glob is_file subprocess_run decode
         a0 input_folder a2 rest k Hk r cmd f. subst r.
  assert (E : Valgrind.start_and_program py_int a2 rest = (k, rest)).
  { unfold Valgrind.start_and_program. now rewrite Hk. }
  destruct (accepted_or_not isdir sorted_glob is_file input_folder
              (fst (Valgrind.start_and_program py_int a2 rest))) as [A|N].
  - destruct (main_accepted py_int isdir sorted_glob is_file subprocess_run
                decode a0 input_folder a2 rest A) as (s0 & Hs0 & Hm).
    destruct (Hm _ eq_refl) as [_ Ht]. rewrite Ht. clear Hm Ht.
    destruct (test_inputs_spec subprocess_run decode
                (Valgrind.valgrind_cmd
                   ++ snd (Valgrind.start_and_program py_int a2 rest))
                (List.length (Valgrind.inputs_of sorted_glob is_file input_folder))
                (skipn (Z.to_nat (fst (Valgrind.start_and_program py_int a2 rest)))
                   (Valgrind.inputs_of sorted_glob is_file input_folder))
                (Z.to_nat (fst (Valgrind.start_and_program py_int a2 rest))) s0)
      as [(_ & _ & T)|(_ & pre & g & post & Hsplit & _ & _ & T)];
      cbv zeta in T; rewrite T, Hs0; rewrite E in *; simpl fst in *;
      simpl snd in *; rewrite app_nil_l; intros Hin;
      apply in_map_iff in Hin; destruct Hin as (x & [= <- <-] & Hx);
      (split; [reflexivity|]).
    + exact Hx.
    + rewrite Hsplit.
      replace (pre ++ g :: post) with ((pre ++ [g]) ++ post)
        by now rewrite <- app_assoc.
      apply in_or_app. now left.
  - destruct (main_rejected py_int isdir sorted_glob is_file subprocess_run
                decode a0 input_folder a2 rest N) as (_ & Ht & _).
    rewrite Ht. intros [].
Qed.

Lemma numeric_argument_is_the_start_index_witness :
  (Valgrind.valgrind_cmd ++ ["./httpd"%string]) =
    Valgrind.valgrind_cmd ++ ["./httpd"%string] /\
  In Valgrind.in_b
     (skipn (Z.to_nat 1)
        (Valgrind.inputs_of Valgrind.sample_glob Valgrind.sample_is_file "in")).
Proof.
  apply (numeric_argument_is_the_start_index
           Valgrind.sample_int Valgrind.sample_isdir Valgrind.sample_glob
           Valgrind.sample_is_file Valgrind.sample_run (fun b => b)
           "run_valgrind.py" "in" "1" ["./httpd"] 1 eq_refl)%string.
  vm_compute. left. reflexivity.
Defined.

(* ================================================================== *)
(** ** The batch driver on an output that can refuse a text *)

Lemma map_pair_inj {A B : Type} (c : A) (xs ys : list B) :
  map (pair c) xs = map (pair c) ys -> xs = ys.
Proof.
  revert ys. induction xs as [|x xs IH]; intros [|y ys] E;
    simpl in E; try discriminate; [reflexivity|].
  injection E as -> E. f_equal. now apply IH.
Qed.

Lemma removelast_cons_in {A : Type} (g f : A) tr :
  In g (removelast (f :: tr)) -> tr <> [] /\ (g = f \/ In g (removelast tr)).
Proof.
  destruct tr as [|x tr]; simpl; [intros []|].
  intros [<-|H]; (split; [discriminate|]); [now left|now right].
Qed.

Lemma in_removelast_middle {A : Type} (pre : list A) f post :
  post <> [] -> In f (removelast (pre ++ f :: post)).
Proof.
  intros H. replace (pre ++ f :: post) with ((pre ++ [f]) ++ post)
    by now rewrite <- app_assoc.
  rewrite removelast_app by exact H.
  apply in_or_app. left. apply in_or_app. right. now left.
Qed.

Section IOFacts.

Variable py_int : string -> option Z.
Variable isdir : string -> bool.
Variable sorted_glob : string -> list Valgrind.Path.
Variable is_file : Valgrind.Path -> bool.
Variable subprocess_run : list string -> Valgrind.Path -> Valgrind.run_outcome.
Variable decode : string -> string.
Variable print_raises : list string -> string -> option string.

Local Abbreviation print_all := (ValgrindIO.print_all print_raises).
Local Abbreviation finish := (ValgrindIO.finish print_raises).
Local Abbreviation on_exception := (ValgrindIO.on_exception print_raises).
Local Abbreviation io_test_inputs :=
  (ValgrindIO.test_inputs subprocess_run decode print_raises).
Local Abbreviation io_main :=
  (ValgrindIO.main py_int isdir sorted_glob is_file subprocess_run decode
     print_raises).
Local Abbreviation stops := (Valgrind.stops subprocess_run).
Local Abbreviation inputs_of := (Valgrind.inputs_of sorted_glob is_file).
Local Abbreviation start_and_program := (Valgrind.start_and_program py_int).
Local Abbreviation accepted := (Valgrind.accepted isdir sorted_glob is_file).

Lemma io_print_all_tried texts :
  forall s,
    match print_all texts s with
    | inl s' => Valgrind.tried s' = Valgrind.tried s
    | inr (_, s') => Valgrind.tried s' = Valgrind.tried s
    end.
Proof.
  induction texts as [|t texts IH]; intros s; simpl; [reflexivity|].
  destruct (print_raises (Valgrind.printed s) t); [reflexivity|].
  exact (IH (Valgrind.print t s)).
Qed.

Lemma io_finish_spec code texts s :
  Valgrind.tried (snd (finish code texts s)) = Valgrind.tried s /\
  (fst (finish code texts s) = code \/ fst (finish code texts s) = 1).
Proof.
  unfold ValgrindIO.finish. pose proof (io_print_all_tried texts s) as T.
  destruct (print_all texts s) as [s'|[e s']]; simpl; split; auto.
Qed.

Lemma io_on_exception_spec f e s :
  fst (on_exception f e s) = Some 1 /\
  Valgrind.tried (snd (on_exception f e s)) = Valgrind.tried s.
Proof.
  unfold ValgrindIO.on_exception.
  match goal with
  | |- context [ValgrindIO.finish _ ?c ?ts ?s0] =>
      destruct (io_finish_spec c ts s0) as [T C];
      destruct (ValgrindIO.finish print_raises c ts s0) as [code s']
  end.
  simpl in *. split; [|exact T]. destruct C as [->| ->]; reflexivity.
Qed.

(** The loop runs a prefix of the inputs.  None but the last of those it
    ran stops the batch; it falls through only when it ran them all and
    none stops the batch, and otherwise exits with code 1. *)
Lemma io_test_inputs_spec cmd total :
  forall files idx s,
    let r := io_test_inputs cmd total files idx s in
    exists tr rest',
      files = tr ++ rest' /\
      Valgrind.tried (snd r) = Valgrind.tried s ++ map (pair cmd) tr /\
      (forall g, In g (removelast tr) -> stops cmd g = false) /\
      ((fst r = None /\ rest' = [] /\
        forall g, In g tr -> stops cmd g = false) \/
       fst r = Some 1).
Proof.
  induction files as [|f files IH]; intros idx s; cbv zeta.
  - exists [], []. simpl. rewrite app_nil_r.
    split; [reflexivity|]. split; [reflexivity|].
    split; [intros g []|]. left. repeat split. intros g [].
  - assert (go : forall s',
      Valgrind.tried s' = Valgrind.tried s ++ [(cmd, f)] ->
      stops cmd f = false ->
      let r := io_test_inputs cmd total files (S idx) s' in
      exists tr rest',
        f :: files = tr ++ rest' /\
        Valgrind.tried (snd r) = Valgrind.tried s ++ map (pair cmd) tr /\
        (forall g, In g (removelast tr) -> stops cmd g = false) /\
        ((fst r = None /\ rest' = [] /\
          forall g, In g tr -> stops cmd g = false) \/
         fst r = Some 1)).
    { intros s' Hs' Hf. cbv zeta.
      destruct (IH (S idx) s') as (tr & rest' & Hsplit & Ht & Hlast & Hend).
      exists (f :: tr), rest'. split; [simpl; now rewrite Hsplit|].
      split; [rewrite Ht, Hs'; simpl; now rewrite <- app_assoc|].
      split.
      - intros g Hg. apply removelast_cons_in in Hg.
        destruct Hg as [_ [->|Hg]]; [exact Hf|now apply Hlast].
      - destruct Hend as [(E & Hr & Hall)|E]; [left|now right].
        repeat split; trivial. intros g [<-|Hg]; [exact Hf|now apply Hall]. }
    assert (halt : forall r : option Z * Valgrind.state,
      fst r = Some 1 ->
      Valgrind.tried (snd r) = Valgrind.tried s ++ [(cmd, f)] ->
      exists tr rest',
        f :: files = tr ++ rest' /\
        Valgrind.tried (snd r) = Valgrind.tried s ++ map (pair cmd) tr /\
        (forall g, In g (removelast tr) -> stops cmd g = false) /\
        ((fst r = None /\ rest' = [] /\
          forall g, In g tr -> stops cmd g = false) \/
         fst r = Some 1)).
    { intros r E Ht. exists [f], files. repeat split; trivial.
      - intros g [].
      - now right. }
    cbn [ValgrindIO.test_inputs].
    match goal with
    | |- context [ValgrindIO.print_all _ ?ts s] =>
        pose proof (io_print_all_tried ts s) as T1;
        destruct (ValgrindIO.print_all print_raises ts s) as [s1|[e1 s1]]
    end.
    2: { exists [], (f :: files). simpl. rewrite app_nil_r.
         repeat split; trivial; [intros g []|now right]. }
    destruct (subprocess_run cmd f) as [rc out err| |e] eqn:Hrun.
    + match goal with
      | |- context [ValgrindIO.print_all _ ?ts ?s0] =>
          pose proof (io_print_all_tried ts s0) as T2;
          destruct (ValgrindIO.print_all print_raises ts s0) as [s2|[e2 s2]]
      end.
      * destruct (rc =? 42) eqn:Hrc.
        -- apply halt; [reflexivity|]. simpl. now rewrite T2, <- T1.
        -- apply go; [|unfold Valgrind.stops; now rewrite Hrun].
           now rewrite T2, <- T1.
      * destruct (io_on_exception_spec f e2 s2) as [E T3].
        apply halt; [exact E|]. now rewrite T3, T2, <- T1.
    + match goal with
      | |- context [ValgrindIO.print_all _ ?ts ?s0] =>
          pose proof (io_print_all_tried ts s0) as T2;
          destruct (ValgrindIO.print_all print_raises ts s0) as [s2|[e2 s2]]
      end.
      * apply go; [|unfold Valgrind.stops; now rewrite Hrun].
        now rewrite T2, <- T1.
      * apply halt; [reflexivity|]. simpl. now rewrite T2, <- T1.
    + destruct (io_on_exception_spec f e
                  (Valgrind.start cmd f s1)) as [E T3].
      apply halt; [exact E|]. now rewrite T3, <- T1.
Qed.

(** What [main] ran, and how it ended, on any output. *)
Lemma io_main_spec a0 input_folder a2 rest :
  let start_index := fst (start_and_program a2 rest) in
  let cmd := Valgrind.valgrind_cmd ++ snd (start_and_program a2 rest) in
  let todo := skipn (Z.to_nat start_index) (inputs_of input_folder) in
  let r := io_main (a0 :: input_folder :: a2 :: rest) in
  exists tr rest',
    todo = tr ++ rest' /\
    Valgrind.tried (snd r) = map (pair cmd) tr /\
    (forall g, In g (removelast tr) -> stops cmd g = false) /\
    ((fst r = 0 /\ accepted input_folder start_index /\ rest' = [] /\
      forall g, In g tr -> stops cmd g = false) \/
     fst r = 1).
Proof.
  cbv zeta. unfold ValgrindIO.main, Valgrind.accepted, Valgrind.inputs_of.
  destruct (Valgrind.start_and_program py_int a2 rest) as [start args].
  cbn [fst snd].
  assert (reject : forall ts,
    let r := finish 1 ts {| Valgrind.printed := []; Valgrind.tried := [] |} in
    exists tr rest',
      skipn (Z.to_nat start) (filter is_file (sorted_glob input_folder))
        = tr ++ rest' /\
      Valgrind.tried (snd r) = map (pair (Valgrind.valgrind_cmd ++ args)) tr /\
      (forall g, In g (removelast tr) ->
         stops (Valgrind.valgrind_cmd ++ args) g = false) /\
      ((fst r = 0 /\
        (isdir input_folder = true /\
         0 <= start <
           Z.of_nat (List.length (filter is_file (sorted_glob input_folder)))) /\
        rest' = [] /\
        forall g, In g tr -> stops (Valgrind.valgrind_cmd ++ args) g = false) \/
       fst r = 1)).
  { intros ts. cbv zeta.
    destruct (io_finish_spec 1 ts
                {| Valgrind.printed := []; Valgrind.tried := [] |}) as [T C].
    exists [], (skipn (Z.to_nat start)
                  (filter is_file (sorted_glob input_folder))).
    split; [reflexivity|]. split; [exact T|]. split; [intros g []|].
    right. now destruct C. }
  destruct (isdir input_folder) eqn:Hd; cbn [negb];
    [|apply reject].
  destruct (filter is_file (sorted_glob input_folder)) as [|f fs] eqn:Ef;
    [apply reject|].
  destruct (Z.ltb_spec start 0) as [|H0]; [apply reject|].
  destruct (Z.leb_spec (Z.of_nat (List.length (f :: fs))) start) as [|Hn];
    [apply reject|].
  match goal with
  | |- context [ValgrindIO.print_all _ ?ts ?s0] =>
      pose proof (io_print_all_tried ts s0) as T1;
      destruct (ValgrindIO.print_all print_raises ts s0) as [s1|[e1 s1]]
  end.
  2: { exists [], (skipn (Z.to_nat start) (f :: fs)).
       split; [reflexivity|]. split; [exact T1|]. split; [intros g []|].
       now right. }
  destruct (io_test_inputs_spec (Valgrind.valgrind_cmd ++ args)
              (List.length (f :: fs)) (skipn (Z.to_nat start) (f :: fs))
              (Z.to_nat start) s1)
    as (tr & rest' & Hsplit & Ht & Hlast & Hend).
  cbv zeta in Ht, Hend. rewrite T1 in Ht. cbn [Valgrind.tried List.app] in Ht.
  exists tr, rest'. split; [exact Hsplit|].
  destruct (ValgrindIO.test_inputs _ _ _ _ _ _ _ _) as [[code|] s2];
    cbn [fst snd] in *.
  - split; [exact Ht|]. split; [exact Hlast|]. right.
    destruct Hend as [(E & _)|E]; [discriminate|now injection E].
  - match goal with
    | |- context [ValgrindIO.finish _ ?c ?ts ?s0] =>
        destruct (io_finish_spec c ts s0) as [T C];
        destruct (ValgrindIO.finish print_raises c ts s0) as [code s3]
    end.
    cbn [fst snd] in *.
    split; [now rewrite T|]. split; [exact Hlast|].
    destruct C as [->| ->]; [left|now right].
    destruct Hend as [(_ & Hr & Hall)|E]; [|discriminate].
    repeat split; trivial; lia.
Qed.

(** On an output that takes every text the driver is [Valgrind.main]. *)
Lemma io_print_all_taken texts :
  (forall h t, print_raises h t = None) ->
  forall s,
    print_all texts s = inl (fold_left (fun s t => Valgrind.print t s) texts s).
Proof.
  intros H. induction texts as [|t texts IH]; intros s; simpl; [reflexivity|].
  now rewrite H, IH.
Qed.

Lemma io_test_inputs_taken cmd total :
  (forall h t, print_raises h t = None) ->
  forall files idx s,
    io_test_inputs cmd total files idx s =
    Valgrind.test_inputs subprocess_run decode cmd total files idx s.
Proof.
  intros H. induction files as [|f files IH]; intros idx s; [reflexivity|].
  cbn [ValgrindIO.test_inputs Valgrind.test_inputs].
  unfold ValgrindIO.on_exception, ValgrindIO.finish.
  rewrite ?(io_print_all_taken _ H).
  destruct (subprocess_run cmd f) as [rc out err| |e];
    rewrite ?(io_print_all_taken _ H).
  - destruct (Valgrind.nonempty err), (rc =? 42), (Valgrind.nonempty out),
      (negb (rc =? 0));
      cbn [fold_left List.app]; rewrite ?IH; reflexivity.
  - cbn [fold_left]. apply IH.
  - reflexivity.
Qed.

Lemma io_main_taken argv :
  (forall h t, print_raises h t = None) ->
  io_main argv =
  Valgrind.main py_int isdir sorted_glob is_file subprocess_run decode argv.
Proof.
  intros H. unfold ValgrindIO.main, Valgrind.main, ValgrindIO.finish.
  destruct argv as [|a0 [|input_folder [|a2 rest]]];
    try (rewrite (io_print_all_taken _ H); reflexivity).
  destruct (Valgrind.start_and_program py_int a2 rest) as [start args].
  destruct (isdir input_folder); cbn [negb];
    [|rewrite (io_print_all_taken _ H); reflexivity].
  destruct (filter is_file (sorted_glob input_folder)) as [|f fs];
    [rewrite (io_print_all_taken _ H); reflexivity|].
  destruct (start <? 0);
    [rewrite (io_print_all_taken _ H); reflexivity|].
  destruct (Z.of_nat (List.length (f :: fs)) <=? start);
    [rewrite (io_print_all_taken _ H); reflexivity|].
  rewrite (io_print_all_taken _ H), (io_test_inputs_taken _ _ H).
  destruct (0 <? start); cbn [fold_left List.app];
    destruct (Valgrind.test_inputs _ _ _ _ _ _ _) as [[code|] s'];
    try reflexivity; now rewrite (io_print_all_taken _ H).
Qed.

(** X15: an input whose run ends with valgrind's exit code 42 or with
    an exception other than the timeout ends the batch, whatever the
    output does with the prints: it is the last input run and the exit
    code is 1.  On an output that takes every text, and with accepted
    arguments, the inputs run are exactly those from the start index up
    to and including the first such input. *)
Theorem stopping_input_ends_the_batch :
  forall a0 input_folder a2 rest,
    let start_index := fst (start_and_program a2 rest) in
    let cmd := Valgrind.valgrind_cmd ++ snd (start_and_program a2 rest) in
    let todo := skipn (Z.to_nat start_index) (inputs_of input_folder) in
    let r := io_main (a0 :: input_folder :: a2 :: rest) in
    (forall pre f post,
        Valgrind.tried (snd r) = map (pair cmd) (pre ++ f :: post) ->
        stops cmd f = true ->
        post = [] /\ fst r = 1) /\
    ((forall h t, print_raises h t = None) ->
     forall pre f post,
       accepted input_folder start_index ->
       todo = pre ++ f :: post ->
       (forall g, In g pre -> stops cmd g = false) ->
       stops cmd f = true ->
       fst r = 1 /\ Valgrind.tried (snd r) = map (pair cmd) (pre ++ [f])).
Proof.
  intros a0 input_folder a2 rest start_index cmd todo r.
  subst start_index cmd todo r. split.
  - intros pre f post Ht Hf.
    destruct (io_main_spec a0 input_folder a2 rest)
      as (tr & rest' & _ & Ht' & Hlast & Hend).
    cbv zeta in Ht', Hend. rewrite Ht in Ht'.
    apply map_pair_inj in Ht'. subst tr.
    assert (P : post = []).
    { destruct post as [|x post]; [reflexivity|].
      rewrite (Hlast f) in Hf; [discriminate|].
      apply in_removelast_middle. discriminate. }
    split; [exact P|].
    destruct Hend as [(_ & _ & _ & Hall)|E]; [|exact E].
    rewrite (Hall f) in Hf; [discriminate|].
    apply in_or_app. right. now left.
  - intros H pre f post A Hsplit Hpre Hf. rewrite (io_main_taken _ H).
    exact (main_stops_at_first_error py_int isdir sorted_glob is_file
             subprocess_run decode a0 input_folder a2 rest pre f post
             A Hsplit Hpre Hf).
Qed.


End IOFacts.

Lemma stopping_input_ends_the_batch_witness :
  let cmd := Valgrind.valgrind_cmd ++ ["./httpd"%string] in
  (([] : list Valgrind.Path) = [] /\
   fst (ValgrindIO.sample_main ValgrindIO.ascii_only
          ["run_valgrind.py"; "in"; "1"; "./httpd"]%string) = 1) /\
  (let r := ValgrindIO.sample_main ValgrindIO.takes_all
              ["run_valgrind.py"; "in"; "0"; "./httpd"]%string in
   fst r = 1 /\
   Valgrind.tried (snd r) =
     map (pair cmd) ([Valgrind.in_a] ++ [Valgrind.in_b])).
Proof.
  split.
  - exact (proj1 (stopping_input_ends_the_batch
                    Valgrind.sample_int Valgrind.sample_isdir
                    Valgrind.sample_glob Valgrind.sample_is_file
                    Valgrind.sample_run (fun b => b) ValgrindIO.ascii_only
                    "run_valgrind.py" "in" "1" ["./httpd"])%string
             [] Valgrind.in_b [] eq_refl eq_refl).
  - apply (proj2 (stopping_input_ends_the_batch
                    Valgrind.sample_int Valgrind.sample_isdir
                    Valgrind.sample_glob Valgrind.sample_is_file
                    Valgrind.sample_run (fun b => b) ValgrindIO.takes_all
                    "run_valgrind.py" "in" "0" ["./httpd"])%string
             (fun _ _ => eq_refl)
             [Valgrind.in_a] Valgrind.in_b [Valgrind.in_c]).
    + split; [reflexivity|]. vm_compute. split; [discriminate|reflexivity].
    + reflexivity.
    + intros g [<-|[]]. reflexivity.
    + reflexivity.
Defined.


(** The sample batch from input 2 on a terminal that takes ASCII only:
    the input passes, the line that says so cannot be printed, the
    handler of the loop reports that and the batch ends with exit
    code 1. *)
Example ascii_terminal_ends_the_batch :
  let r := ValgrindIO.sample_main ValgrindIO.ascii_only
             ["run_valgrind.py"; "in"; "2"; "./httpd"]%string in
  fst r = 1 /\
  map (fun t => Valgrind.file_name (snd t)) (Valgrind.tried (snd r))
    = ["c"%string] /\
  nth 7 (Valgrind.printed (snd r)) ""%string
    = "ERROR running valgrind with input: in/c"%string /\
  nth 8 (Valgrind.printed (snd r)) ""%string
    = "Exception: 'ascii' codec can't encode character"%string /\
  fst (ValgrindIO.sample_main ValgrindIO.takes_all
         ["run_valgrind.py"; "in"; "2"; "./httpd"]%string) = 0.
Proof. vm_compute. repeat split. Qed.
